(** * Customers module: models.py and views.py

    A shallow embedding of the customer model ([models.py]) and of the
    request handlers ([views.py]), followed by the properties of the
    specification that concern them.

    Modelling conventions.
    - The customer table is a finite map from primary key to row
      ([gmap Z Customer.t]); a model instance is a row value held by the
      handler, and [save] writes it back under its primary key.
    - Python exceptions are values of [exn], each of a class with its base
      classes; a computation that may raise returns a [result], and [try
      ... except cls] handles the instances of [cls].
    - The optional sales application is an [option (list Sale.t)]:
      [None] when [from sales.models import Sale] raises [ImportError].
    - A [Decimal] amount is modelled by its numeric value (a canonical
      rational); how the value is written (its exponent, trailing zeros)
      is not kept.  Division is the division of the default decimal
      context: the quotient is rounded to 28 significant digits, ties to
      even.  The exponent limits of the context ([Emin], [Emax]) are far
      beyond any amount and are not enforced by the model; the statement
      on [average_purchase] is made for quotients within them.  The
      quantisation of stored amounts by the database is outside the model.
    - An instance carries a primary key; [save] updates the row with that
      key and inserts the instance when there is none.
    - Text is a [string] of 8-bit code points.  Case folding for
      [icontains] is the one of SQLite's [LIKE], Django's default database:
      the letters A to Z only, so [É] and [é] stay different;
      [order_by('name')] is the code point order.
    - Timestamps are integers (any fixed resolution since a fixed epoch);
      [strftime] output is kept symbolic.
    - [order_by] is a merge sort of the rows.  The database leaves the
      order of rows with equal keys open; no statement below depends on how
      the sort places them. *)

From Stdlib Require Import ZArith QArith Qcanon Qround Qabs Qpower Lqa.
From Stdlib Require Import Ascii String.
From stdpp Require Import base numbers option list sorting strings gmap fin_maps.

Set Warnings "-register-all".

Local Open Scope string_scope.
Local Open Scope list_scope.
Local Open Scope Z_scope.

(** ** Exceptions and results *)

(** The exception classes the module meets: the built-in ones, those of
    the [decimal] module and Django's [Http404], declared as [class
    Http404(Exception)]. *)
Inductive exn_class :=
| BaseException
| Exception
| ArithmeticError
| ZeroDivisionError
| DecimalException
| DivisionByZero
| InvalidOperation
| ImportError
| Http404.

Global Instance exn_class_eq_dec : EqDecision exn_class.
Proof. solve_decision. Defined.

(** The class itself followed by its base classes. *)
Definition mro (cls : exn_class) : list exn_class :=
  match cls with
  | BaseException => [BaseException]
  | Exception => [Exception; BaseException]
  | ArithmeticError => [ArithmeticError; Exception; BaseException]
  | ZeroDivisionError =>
      [ZeroDivisionError; ArithmeticError; Exception; BaseException]
  | DecimalException =>
      [DecimalException; ArithmeticError; Exception; BaseException]
  | DivisionByZero =>
      [DivisionByZero; DecimalException; ZeroDivisionError; ArithmeticError;
       Exception; BaseException]
  | InvalidOperation =>
      [InvalidOperation; DecimalException; ArithmeticError; Exception;
       BaseException]
  | ImportError => [ImportError; Exception; BaseException]
  | Http404 => [Http404; Exception; BaseException]
  end.

(** An exception: its class and its message. *)
Record exn := Exn { exn_type : exn_class; exn_msg : string }.

(** [isinstance(e, cls)] *)
Definition isinstance (e : exn) (cls : exn_class) : bool :=
  bool_decide (cls ∈ mro (exn_type e)).

Inductive result (A : Type) :=
| Ok (a : A)
| Raise (e : exn).
Arguments Ok {A} a.
Arguments Raise {A} e.

(** [str(e)] *)
Definition str_exn (e : exn) : string := exn_msg e.

(** ** Computations over the customer table

    A computation reads and writes the table and either returns or
    raises; writes made before an exception stay (no handler runs in a
    transaction).  Sequencing is written [x ← m; k]: the first exception
    ends the computation. *)

Definition DB (Row A : Type) : Type := gmap Z Row → result A * gmap Z Row.

Global Instance DB_ret {Row} : MRet (DB Row) := λ A a db, (Ok a, db).
Global Instance DB_bind {Row} : MBind (DB Row) := λ A B k m db,
  match m db with
  | (Ok a, db') => k a db'
  | (Raise e, db') => (Raise e, db')
  end.

(** A computation that does not touch the table. *)
Definition lift {Row A} (r : result A) : DB Row A := λ db, (r, db).

(** [raise e] *)
Definition raise {Row A} (e : exn) : DB Row A := lift (Raise e).

(** [try: body except cls as e: handler e]: an exception that is an
    instance of [cls] is handled, any other propagates. *)
Definition try_except {Row A} (body : DB Row A) (cls : exn_class)
    (handler : exn → DB Row A) : DB Row A := λ db,
  match body db with
  | (Ok a, db') => (Ok a, db')
  | (Raise e, db') =>
      if isinstance e cls then handler e db' else (Raise e, db')
  end.

(** ** Text *)

(** [str.isspace] on one code point below 256. *)
Definition isspace (c : ascii) : bool :=
  let n := N_of_ascii c in
  ((9 <=? n) && (n <=? 13) || (28 <=? n) && (n <=? 32)
   || (n =? 133) || (n =? 160))%N.

Fixpoint lstrip (s : string) : string :=
  match s with
  | EmptyString => EmptyString
  | String c s' => if isspace c then lstrip s' else s
  end.

Fixpoint rstrip (s : string) : string :=
  match s with
  | EmptyString => EmptyString
  | String c s' =>
      match rstrip s' with
      | EmptyString => if isspace c then EmptyString else String c EmptyString
      | r => String c r
      end
  end.

(** [s.strip()] *)
Definition strip (s : string) : string := rstrip (lstrip s).

(** Every character of [s] is white space. *)
Fixpoint whitespace_only (s : string) : bool :=
  match s with
  | EmptyString => true
  | String c s' => isspace c && whitespace_only s'
  end.

(** ASCII case folding, as the database does for [icontains]. *)
Definition to_lower (c : ascii) : ascii :=
  let n := N_of_ascii c in
  if ((65 <=? n) && (n <=? 90))%N then ascii_of_N (n + 32) else c.

Fixpoint lower (s : string) : string :=
  match s with
  | EmptyString => EmptyString
  | String c s' => String (to_lower c) (lower s')
  end.

Fixpoint startswith (s p : string) {struct p} : bool :=
  match p, s with
  | EmptyString, _ => true
  | String _ _, EmptyString => false
  | String a p', String b s' => Ascii.eqb a b && startswith s' p'
  end.

Fixpoint contains (s p : string) : bool :=
  startswith s p ||
  match s with
  | EmptyString => false
  | String _ s' => contains s' p
  end.

(** The lookup [field__icontains=text]. *)
Definition icontains (field text : string) : bool :=
  contains (lower field) (lower text).

(** [gettext]: no catalogue is part of the module, the message id is
    returned. *)
Definition gettext (msgid : string) : string := msgid.

(** ** Requests *)

(** A [QueryDict] keeps every submitted pair in order; [get] returns the
    last value submitted for the key. *)
Definition QueryDict := list (string * string).

Fixpoint qd_lookup (q : QueryDict) (key : string) : option string :=
  match q with
  | [] => None
  | (k, v) :: q' =>
      match qd_lookup q' key with
      | Some v' => Some v'
      | None => if decide (k = key) then Some v else None
      end
  end.

(** [q.get(key, default)] *)
Definition qd_get (q : QueryDict) (key dflt : string) : string :=
  default dflt (qd_lookup q key).

Record HttpRequest := {
  method : string;
  GET : QueryDict;
  POST : QueryDict;
  (** whether [request.headers.get('HX-Request')] is truthy *)
  HX_Request : bool
}.

(** ** Decimal arithmetic

    The operations of Python's [decimal] module the model needs, on the
    numeric value of a [Decimal].  The context is the default one:
    precision 28, rounding [ROUND_HALF_EVEN]. *)

Abbreviation Decimal := Qc.

Module decimal.
(** [getcontext().prec], [getcontext().Emax] and [getcontext().Emin] *)
Definition prec : Z := 28.

(** The number of decimal digits of [n], less one, for [1 ≤ n]: at most
    [fuel] divisions by ten. *)
Fixpoint log10_fuel (fuel : nat) (n : Z) : Z :=
  match fuel with
  | O => 0
  | S fuel' => if decide (n < 10) then 0 else 1 + log10_fuel fuel' (n / 10)
  end.

Definition log10 (n : Z) : Z := log10_fuel (Z.to_nat (Z.log2 n)) n.

(** [x.adjusted()]: the exponent of the leading digit of a value other
    than zero, 1 for 25 and -3 for 0.0033. *)
Definition adjusted (x : Q) : Z :=
  let k := log10 (Z.abs (Qnum x)) - log10 (Zpos (Qden x)) in
  if Qle_bool (Qpower 10 k) (Qabs x) then k else k - 1.

(** [ROUND_HALF_EVEN]: the nearest integer, the even one of two equally
    near. *)
Definition round_half_even (y : Q) : Z :=
  let f := Qfloor y in
  match (y - inject_Z f ?= 1 # 2)%Q with
  | Lt => f
  | Gt => f + 1
  | Eq => if Z.even f then f else f + 1
  end.

(** An exact result brought to the precision of the context: the digits
    from the leading one down to the exponent [adjusted x - (prec - 1)] are
    kept, the last of them rounded. *)
Definition round_to_prec (x : Q) : Q :=
  if Qeq_bool x 0 then 0%Q
  else
    let e := adjusted x - (prec - 1) in
    (inject_Z (round_half_even (x / Qpower 10 e)) * Qpower 10 e)%Q.

Definition context_round (x : Decimal) : Decimal := Q2Qc (round_to_prec x).


End decimal.

(** ** The data model (models.py) *)

Definition datetime := Z.

(** The sales application is an optional collaborator that lives outside
    this module; only the attributes the customer model reads are kept. *)
Module Sale.
Record t := {
  customer_name : string;
  status : string;
  total : Decimal;
  created_at : datetime
}.

(** Modelled from the spec: the constant [Sale.STATUS_COMPLETED] is declared
    by the sales application, which is not part of the module; the
    specification gives the status of a finished sale as "completed". *)
Definition STATUS_COMPLETED : string := "completed".
End Sale.

Module Customer.
Record t := {
  id : Z;
  name : string;
  email : string;
  phone : string;
  address : string;
  tax_id : string;
  total_spent : Decimal;
  visit_count : Z;
  notes : string;
  is_active : bool;
  created_at : datetime;
  updated_at : datetime;
  last_purchase_at : option datetime
}.

(** Attribute assignment [self.f = v], one function per assigned field. *)
Definition set_name (v : string) (self : t) : t :=
  {| id := id self; name := v; email := email self; phone := phone self;
     address := address self; tax_id := tax_id self;
     total_spent := total_spent self; visit_count := visit_count self;
     notes := notes self; is_active := is_active self;
     created_at := created_at self; updated_at := updated_at self;
     last_purchase_at := last_purchase_at self |}.

Definition set_email (v : string) (self : t) : t :=
  {| id := id self; name := name self; email := v; phone := phone self;
     address := address self; tax_id := tax_id self;
     total_spent := total_spent self; visit_count := visit_count self;
     notes := notes self; is_active := is_active self;
     created_at := created_at self; updated_at := updated_at self;
     last_purchase_at := last_purchase_at self |}.

Definition set_phone (v : string) (self : t) : t :=
  {| id := id self; name := name self; email := email self; phone := v;
     address := address self; tax_id := tax_id self;
     total_spent := total_spent self; visit_count := visit_count self;
     notes := notes self; is_active := is_active self;
     created_at := created_at self; updated_at := updated_at self;
     last_purchase_at := last_purchase_at self |}.

Definition set_address (v : string) (self : t) : t :=
  {| id := id self; name := name self; email := email self;
     phone := phone self; address := v; tax_id := tax_id self;
     total_spent := total_spent self; visit_count := visit_count self;
     notes := notes self; is_active := is_active self;
     created_at := created_at self; updated_at := updated_at self;
     last_purchase_at := last_purchase_at self |}.

Definition set_tax_id (v : string) (self : t) : t :=
  {| id := id self; name := name self; email := email self;
     phone := phone self; address := address self; tax_id := v;
     total_spent := total_spent self; visit_count := visit_count self;
     notes := notes self; is_active := is_active self;
     created_at := created_at self; updated_at := updated_at self;
     last_purchase_at := last_purchase_at self |}.

Definition set_total_spent (v : Decimal) (self : t) : t :=
  {| id := id self; name := name self; email := email self;
     phone := phone self; address := address self; tax_id := tax_id self;
     total_spent := v; visit_count := visit_count self; notes := notes self;
     is_active := is_active self; created_at := created_at self;
     updated_at := updated_at self; last_purchase_at := last_purchase_at self |}.

Definition set_visit_count (v : Z) (self : t) : t :=
  {| id := id self; name := name self; email := email self;
     phone := phone self; address := address self; tax_id := tax_id self;
     total_spent := total_spent self; visit_count := v; notes := notes self;
     is_active := is_active self; created_at := created_at self;
     updated_at := updated_at self; last_purchase_at := last_purchase_at self |}.

Definition set_notes (v : string) (self : t) : t :=
  {| id := id self; name := name self; email := email self;
     phone := phone self; address := address self; tax_id := tax_id self;
     total_spent := total_spent self; visit_count := visit_count self;
     notes := v; is_active := is_active self; created_at := created_at self;
     updated_at := updated_at self; last_purchase_at := last_purchase_at self |}.

Definition set_is_active (v : bool) (self : t) : t :=
  {| id := id self; name := name self; email := email self;
     phone := phone self; address := address self; tax_id := tax_id self;
     total_spent := total_spent self; visit_count := visit_count self;
     notes := notes self; is_active := v; created_at := created_at self;
     updated_at := updated_at self; last_purchase_at := last_purchase_at self |}.

Definition set_created_at (v : datetime) (self : t) : t :=
  {| id := id self; name := name self; email := email self;
     phone := phone self; address := address self; tax_id := tax_id self;
     total_spent := total_spent self; visit_count := visit_count self;
     notes := notes self; is_active := is_active self;
     created_at := v; updated_at := updated_at self;
     last_purchase_at := last_purchase_at self |}.

Definition set_updated_at (v : datetime) (self : t) : t :=
  {| id := id self; name := name self; email := email self;
     phone := phone self; address := address self; tax_id := tax_id self;
     total_spent := total_spent self; visit_count := visit_count self;
     notes := notes self; is_active := is_active self;
     created_at := created_at self; updated_at := v;
     last_purchase_at := last_purchase_at self |}.

Definition set_last_purchase_at (v : option datetime) (self : t) : t :=
  {| id := id self; name := name self; email := email self;
     phone := phone self; address := address self; tax_id := tax_id self;
     total_spent := total_spent self; visit_count := visit_count self;
     notes := notes self; is_active := is_active self;
     created_at := created_at self; updated_at := updated_at self;
     last_purchase_at := v |}.

(** [self.save()]: [auto_now] refreshes [updated_at] and every field is
    written to the row with the primary key of the instance.  When no row
    has that primary key the instance is inserted instead, and
    [auto_now_add] then sets [created_at] as well.  The result is the
    instance after saving. *)
Definition save (now : datetime) (self : t) : DB t t := λ db,
  let self := set_updated_at now self in
  let self :=
    if decide (map_Exists (λ _ row, id row = id self) db) then self
    else set_created_at now self in
  (Ok self, <[id self := self]> db).

(** The next value of the auto-increment primary key. *)
Definition next_pk (db : gmap Z t) : Z :=
  1 + map_fold (λ k _ acc, Z.max k acc) 0 db.

(** [Customer.objects.create(name=, email=, phone=, address=, tax_id=,
    notes=)]; the other fields take their declared defaults. *)
Definition objects_create (now : datetime)
    (name email phone address tax_id notes : string) : DB t t := λ db,
  let self :=
    {| id := next_pk db; name := name; email := email; phone := phone;
       address := address; tax_id := tax_id; total_spent := 0;
       visit_count := 0; notes := notes; is_active := true;
       created_at := now; updated_at := now; last_purchase_at := None |} in
  (Ok self, <[id self := self]> db).

(** [Customer.objects.all()]: the rows of the table.  Every handler that
    iterates over rows orders them itself, which replaces the default
    ordering of [Meta]. *)
Definition objects_all : DB t (list t) := λ db,
  (Ok (map_to_list db).*2, db).

(** [order_by('-created_at')] on customers. *)
Definition newest_first : relation t :=
  λ a b, (created_at b ≤ created_at a)%Z.
Global Instance newest_first_dec : RelDecision newest_first :=
  λ a b, decide (created_at b ≤ created_at a)%Z.

(** [order_by('name')] *)
Definition by_name : relation t := λ a b, String.le (name a) (name b).
Global Instance by_name_dec : RelDecision by_name :=
  λ a b, decide (String.le (name a) (name b)).

(** [from sales.models import Sale]: the rows of the sales table when the
    sales application is installed, [ImportError] otherwise. *)
Definition import_Sale (sales_app : option (list Sale.t)) : DB t (list Sale.t) :=
  match sales_app with
  | Some rows => mret rows
  | None => raise (Exn ImportError "No module named 'sales'")
  end.

(** [Sale.objects.filter(customer_name=self.name,
    status=Sale.STATUS_COMPLETED)] *)
Definition completed_sales (Sale_objects : list Sale.t) (self : t)
  : list Sale.t :=
  filter (λ s, Sale.customer_name s = name self
               ∧ Sale.status s = Sale.STATUS_COMPLETED) Sale_objects.

(** [order_by('-created_at')] on sales. *)
Definition newest_sale_first : relation Sale.t :=
  λ a b, (Sale.created_at b ≤ Sale.created_at a)%Z.
Global Instance newest_sale_first_dec : RelDecision newest_sale_first :=
  λ a b, decide (Sale.created_at b ≤ Sale.created_at a)%Z.

(** [sales.aggregate(total=models.Sum('total'))['total']]: [None] over no
    row. *)
Definition aggregate_Sum_total (sales : list Sale.t) : option Decimal :=
  match sales with
  | [] => None
  | _ => Some (foldr (λ s acc, Sale.total s + acc)%Qc 0%Qc sales)
  end.

(** [x or d] for an optional amount: [None] and a zero amount are
    falsy. *)
Definition or_Decimal (x : option Decimal) (d : Decimal) : Decimal :=
  match x with
  | Some v => if decide (v = 0%Qc) then d else v
  | None => d
  end.

(** [update_stats(self)].  The import is the first statement of the
    [try] block, so when it fails no attribute has been assigned yet and
    the handler leaves [self] as it was. *)
Definition update_stats (sales_app : option (list Sale.t)) (now : datetime)
    (self : t) : DB t t :=
  try_except
    (Sale_objects ← import_Sale sales_app;
     let sales := completed_sales Sale_objects self in
     let self := set_visit_count (Z.of_nat (length sales)) self in
     let self :=
       set_total_spent (or_Decimal (aggregate_Sum_total sales) 0%Qc) self in
     let last_sale := head (merge_sort newest_sale_first sales) in
     let self :=
       match last_sale with
       | Some sale => set_last_purchase_at (Some (Sale.created_at sale)) self
       | None => self
       end in
     save now self)
    ImportError (λ _, mret self).

(** [get_recent_purchases(self, limit=10)] *)
Definition get_recent_purchases (sales_app : option (list Sale.t))
    (self : t) (limit : nat) : DB t (list Sale.t) :=
  try_except
    (Sale_objects ← import_Sale sales_app;
     mret (take limit
             (merge_sort newest_sale_first (completed_sales Sale_objects self))))
    ImportError (λ _, mret []).

(** [x / n] for a [Decimal] and an [int]: the quotient rounded by the
    context; a zero divisor raises [DivisionByZero], or [InvalidOperation]
    when the dividend is zero too. *)
Definition truediv (x : Decimal) (n : Z) : result Decimal :=
  if decide (n = 0) then
    if decide (x = 0%Qc)
    then Raise (Exn InvalidOperation "[<class 'decimal.DivisionUndefined'>]")
    else Raise (Exn DivisionByZero "[<class 'decimal.DivisionByZero'>]")
  else Ok (decimal.context_round (x / Qc_of_Z n)%Qc).

(** The property [average_purchase]. *)
Definition average_purchase (self : t) : result Decimal :=
  if decide (0 < visit_count self)%Z
  then truediv (total_spent self) (visit_count self)
  else Ok 0%Qc.
End Customer.

(** ** Responses *)

Inductive Json :=
| JNull
| JBool (b : bool)
| JInt (n : Z)
| JFloat (x : Decimal)
| JStr (s : string)
| JStrftime (fmt : string) (t : datetime)
| JList (items : list Json)
| JObject (fields : list (string * Json)).

Inductive ContextValue :=
| CtxInt (n : Z)
| CtxStr (s : string)
| CtxCustomer (c : option Customer.t)
| CtxSales (purchases : list Sale.t).

(** A value handed to [csv.writer.writerow]. *)
Inductive Cell :=
| CellStr (s : string)
| CellDecimal (x : Decimal)
| CellInt (n : Z)
| CellStrftime (fmt : string) (t : datetime).

Inductive HttpResponse :=
| JsonResponse (data : list (string * Json))
| render (template : string) (context : list (string * ContextValue))
  (** a [text/csv] attachment named after the date of [filename_date];
      [rows] are the rows written, in order *)
| CsvAttachment (filename_date : datetime) (rows : list (list Cell))
| HttpResponseNotAllowed (permitted : list string)
| HttpResponseNotFound (msg : string)
| HttpResponseServerError.

Definition status_code (r : HttpResponse) : Z :=
  match r with
  | JsonResponse _ | render _ _ | CsvAttachment _ _ => 200
  | HttpResponseNotAllowed _ => 405
  | HttpResponseNotFound _ => 404
  | HttpResponseServerError => 500
  end.

(** What the framework sends for a view: the view's response, a 404 page
    for an [Http404] that leaves the view, a 500 page for any other
    exception that leaves it. *)
Definition get_response (view : DB Customer.t HttpResponse)
    (db : gmap Z Customer.t) : HttpResponse * gmap Z Customer.t :=
  match view db with
  | (Ok response, db') => (response, db')
  | (Raise e, db') =>
      if isinstance e Http404 then (HttpResponseNotFound (str_exn e), db')
      else (HttpResponseServerError, db')
  end.

(** [@require_http_methods(permitted)] *)
Definition require_http_methods (permitted : list string)
    (request : HttpRequest) (view : DB Customer.t HttpResponse)
  : DB Customer.t HttpResponse :=
  if decide (method request ∈ permitted) then view
  else mret (HttpResponseNotAllowed permitted).

(** [get_object_or_404(Customer, id=customer_id)] *)
Definition get_object_or_404 (customer_id : Z) : DB Customer.t Customer.t :=
  λ db,
  match db !! customer_id with
  | Some customer => (Ok customer, db)
  | None =>
      (Raise (Exn Http404 "No Customer matches the given query."), db)
  end.

(** The line [csv.writer] produces for a row of text fields (default
    dialect: comma, minimal quoting, CRLF). *)
Definition quotechar : ascii := "034"%char.

Fixpoint csv_special (s : string) : bool :=
  match s with
  | EmptyString => false
  | String c s' =>
      Ascii.eqb c "," || Ascii.eqb c quotechar || Ascii.eqb c "013"
      || Ascii.eqb c "010" || csv_special s'
  end.

Fixpoint csv_escape (s : string) : string :=
  match s with
  | EmptyString => EmptyString
  | String c s' =>
      if Ascii.eqb c quotechar then String c (String c (csv_escape s'))
      else String c (csv_escape s')
  end.

Definition csv_field (s : string) : string :=
  if csv_special s
  then String quotechar (csv_escape s +:+ String quotechar EmptyString)
  else s.

Fixpoint csv_join (fields : list string) : string :=
  match fields with
  | [] => EmptyString
  | [f] => csv_field f
  | f :: rest => csv_field f +:+ "," +:+ csv_join rest
  end.

Definition csv_line (fields : list string) : string :=
  csv_join fields +:+ String "013" (String "010" EmptyString).

(** ** The request handlers (views.py) *)

Definition json_error (msg : string) : HttpResponse :=
  JsonResponse [("success", JBool false); ("error", JStr msg)].

(** [customer_list] *)
Definition customer_list (request : HttpRequest) : DB Customer.t HttpResponse :=
  require_http_methods ["GET"] request (
    customers ← Customer.objects_all;
    let total_customers :=
      length (filter (λ c, Customer.is_active c = true) customers) in
    let inactive_customers :=
      length (filter (λ c, Customer.is_active c = false) customers) in
    let context :=
      [("total_customers", CtxInt (Z.of_nat total_customers));
       ("inactive_customers", CtxInt (Z.of_nat inactive_customers));
       ("page_title", CtxStr (gettext "Clientes"))] in
    if HX_Request request
    then mret (render "customer/partials/list_content.html" context)
    else mret (render "customer/pages/list.html" context)).

(** The query set [customer_list_ajax] builds from the rows of the table,
    before it is sliced. *)
Definition customer_list_ajax_queryset (request : HttpRequest)
    (customers : list Customer.t) : list Customer.t :=
  let search := strip (qd_get (GET request) "search" "") in
  let status_filter := qd_get (GET request) "status" "active" in
  let customers :=
    if decide (status_filter = "active")
    then filter (λ c, Customer.is_active c = true) customers
    else if decide (status_filter = "inactive")
    then filter (λ c, Customer.is_active c = false) customers
    else customers in
  let customers :=
    if decide (search = "") then customers
    else filter (λ c, icontains (Customer.name c) search
                      || icontains (Customer.phone c) search
                      || icontains (Customer.email c) search
                      || icontains (Customer.tax_id c) search) customers in
  merge_sort Customer.newest_first customers.

(** One entry of [customers_data], given the value of
    [customer.average_purchase]. *)
Definition customer_entry (customer : Customer.t) (average_purchase : Decimal)
  : Json :=
  JObject
    [("id", JInt (Customer.id customer));
     ("name", JStr (Customer.name customer));
     ("phone", JStr (Customer.phone customer));
     ("email", JStr (Customer.email customer));
     ("tax_id", JStr (Customer.tax_id customer));
     ("total_spent", JFloat (Customer.total_spent customer));
     ("visit_count", JInt (Customer.visit_count customer));
     ("average_purchase", JFloat average_purchase);
     ("last_purchase",
      match Customer.last_purchase_at customer with
      | Some t => JStrftime "%Y-%m-%d %H:%M" t
      | None => JNull
      end);
     ("is_active", JBool (Customer.is_active customer));
     ("created_at", JStrftime "%Y-%m-%d" (Customer.created_at customer))].

Definition customer_data (customer : Customer.t) : DB Customer.t Json :=
  average_purchase ← lift (Customer.average_purchase customer);
  mret (customer_entry customer average_purchase).

(** [customer_list_ajax] *)
Definition customer_list_ajax (request : HttpRequest)
  : DB Customer.t HttpResponse :=
  require_http_methods ["GET"] request (
    customers ← Customer.objects_all;
    let customers := customer_list_ajax_queryset request customers in
    customers_data ← mapM customer_data (take 100 customers);
    mret (JsonResponse
            [("success", JBool true); ("customers", JList customers_data)])).

(** [customer_create] *)
Definition customer_create (now : datetime) (request : HttpRequest)
  : DB Customer.t HttpResponse :=
  require_http_methods ["GET"; "POST"] request (
    if decide (method request = "POST") then
      try_except
        (let name := strip (qd_get (POST request) "name" "") in
         let email := strip (qd_get (POST request) "email" "") in
         let phone := strip (qd_get (POST request) "phone" "") in
         let address := strip (qd_get (POST request) "address" "") in
         let tax_id := strip (qd_get (POST request) "tax_id" "") in
         let notes := strip (qd_get (POST request) "notes" "") in
         if decide (name = "")
         then mret (json_error (gettext "El nombre es obligatorio"))
         else
           customer ←
             Customer.objects_create now name email phone address tax_id notes;
           mret (JsonResponse
                   [("success", JBool true);
                    ("message", JStr (gettext "Cliente creado correctamente"));
                    ("customer_id", JInt (Customer.id customer))]))
        Exception (λ e, mret (json_error (str_exn e)))
    else
      let context :=
        [("page_title", CtxStr (gettext "Nuevo Cliente"));
         ("customer", CtxCustomer None)] in
      if HX_Request request
      then mret (render "customer/partials/form_content.html" context)
      else mret (render "customer/pages/form.html" context)).

(** [customer_detail] *)
Definition customer_detail (sales_app : option (list Sale.t))
    (request : HttpRequest) (customer_id : Z) : DB Customer.t HttpResponse :=
  require_http_methods ["GET"] request (
    customer ← get_object_or_404 customer_id;
    recent_purchases ← Customer.get_recent_purchases sales_app customer 10;
    let context :=
      [("customer", CtxCustomer (Some customer));
       ("recent_purchases", CtxSales recent_purchases);
       ("page_title",
        CtxStr (gettext "Cliente" +:+ ": " +:+ Customer.name customer))] in
    if HX_Request request
    then mret (render "customer/partials/detail_content.html" context)
    else mret (render "customer/pages/detail.html" context)).

(** [customer_edit] *)
Definition customer_edit (now : datetime) (request : HttpRequest)
    (customer_id : Z) : DB Customer.t HttpResponse :=
  require_http_methods ["GET"; "POST"] request (
    customer ← get_object_or_404 customer_id;
    if decide (method request = "POST") then
      try_except
        (let customer :=
           Customer.set_name (strip (qd_get (POST request) "name" "")) customer in
         let customer :=
           Customer.set_email (strip (qd_get (POST request) "email" "")) customer in
         let customer :=
           Customer.set_phone (strip (qd_get (POST request) "phone" "")) customer in
         let customer :=
           Customer.set_address
             (strip (qd_get (POST request) "address" "")) customer in
         let customer :=
           Customer.set_tax_id (strip (qd_get (POST request) "tax_id" "")) customer in
         let customer :=
           Customer.set_notes (strip (qd_get (POST request) "notes" "")) customer in
         let customer :=
           Customer.set_is_active
             (bool_decide (qd_lookup (POST request) "is_active" = Some "on"))
             customer in
         if decide (Customer.name customer = "")
         then mret (json_error (gettext "El nombre es obligatorio"))
         else
           _ ← Customer.save now customer;
           mret (JsonResponse
                   [("success", JBool true);
                    ("message",
                     JStr (gettext "Cliente actualizado correctamente"))]))
        Exception (λ e, mret (json_error (str_exn e)))
    else
      let context :=
        [("customer", CtxCustomer (Some customer));
         ("page_title",
          CtxStr (gettext "Editar" +:+ ": " +:+ Customer.name customer))] in
      if HX_Request request
      then mret (render "customer/partials/form_content.html" context)
      else mret (render "customer/pages/form.html" context)).

(** [customer_delete] *)
Definition customer_delete (now : datetime) (request : HttpRequest)
    (customer_id : Z) : DB Customer.t HttpResponse :=
  require_http_methods ["POST"] request (
    try_except
      (customer ← get_object_or_404 customer_id;
       let customer := Customer.set_is_active false customer in
       _ ← Customer.save now customer;
       mret (JsonResponse
               [("success", JBool true);
                ("message",
                 JStr (gettext "Cliente desactivado correctamente"))]))
      Exception (λ e, mret (json_error (str_exn e)))).

(** [customer_update_stats] *)
Definition customer_update_stats (sales_app : option (list Sale.t))
    (now : datetime) (request : HttpRequest) (customer_id : Z)
  : DB Customer.t HttpResponse :=
  require_http_methods ["POST"] request (
    try_except
      (customer ← get_object_or_404 customer_id;
       customer ← Customer.update_stats sales_app now customer;
       average_purchase ← lift (Customer.average_purchase customer);
       mret (JsonResponse
               [("success", JBool true);
                ("total_spent", JFloat (Customer.total_spent customer));
                ("visit_count", JInt (Customer.visit_count customer));
                ("average_purchase", JFloat average_purchase)]))
      Exception (λ e, mret (json_error (str_exn e)))).

(** The header row of the export. *)
Definition export_header : list string :=
  ["Name"; "Email"; "Phone"; "Tax ID"; "Total Spent"; "Visit Count";
   "Created At"].

(** The row written for one customer. *)
Definition export_row (customer : Customer.t) : list Cell :=
  [CellStr (Customer.name customer);
   CellStr (Customer.email customer);
   CellStr (Customer.phone customer);
   CellStr (Customer.tax_id customer);
   CellDecimal (Customer.total_spent customer);
   CellInt (Customer.visit_count customer);
   CellStrftime "%Y-%m-%d" (Customer.created_at customer)].

(** The query set [customers_export] iterates over. *)
Definition customers_export_queryset (customers : list Customer.t)
  : list Customer.t :=
  merge_sort Customer.by_name
    (filter (λ c, Customer.is_active c = true) customers).

(** [customers_export] *)
Definition customers_export (now : datetime) (request : HttpRequest)
  : DB Customer.t HttpResponse :=
  require_http_methods ["GET"] request (
    customers ← Customer.objects_all;
    mret (CsvAttachment now
            ((CellStr <$> export_header)
             :: (export_row <$> customers_export_queryset customers)))).

(** ** Table invariant *)

(** Every row sits under its own primary key. *)
Definition keyed (db : gmap Z Customer.t) : Prop :=
  map_Forall (λ pk c, Customer.id c = pk) db.

(** A computation that keeps the invariant. *)
Definition preserves_keyed {A} (m : DB Customer.t A) : Prop :=
  ∀ db, keyed db → keyed (m db).2.

(** Rows in the table. *)
Definition stored (db : gmap Z Customer.t) (c : Customer.t) : Prop :=
  ∃ pk, db !! pk = Some c.

(** ** The listing, in the words of the specification *)

(** The status restriction: ["active"] asks for active customers,
    ["inactive"] for inactive ones, anything else (["all"]) for both. *)
Definition spec_passes_status (status : string) (c : Customer.t) : Prop :=
  (status = "active" → Customer.is_active c = true)
  ∧ (status = "inactive" → Customer.is_active c = false).

(** [text] occurs in [field] once the letters A to Z of both are replaced
    by a to z; every other character, accented letters included, has to
    agree as it stands. *)
Definition spec_contains_ascii_ci (field text : string) : Prop :=
  ∃ pre post, lower field = pre +:+ lower text +:+ post.

(** The search restriction: none for an empty search text, otherwise the
    text occurs in the name, the phone, the email or the tax identifier. *)
Definition spec_passes_search (search : string) (c : Customer.t) : Prop :=
  search = ""
  ∨ spec_contains_ascii_ci (Customer.name c) search
  ∨ spec_contains_ascii_ci (Customer.phone c) search
  ∨ spec_contains_ascii_ci (Customer.email c) search
  ∨ spec_contains_ascii_ci (Customer.tax_id c) search.

(** The listing entry of a customer ([average_purchase] never raises, see
    [average_purchase_returns]). *)
Definition listing_entry (c : Customer.t) : Json :=
  customer_entry c
    (match Customer.average_purchase c with Ok x => x | Raise _ => 0%Qc end).

(** The body of a listing response with the entries of [rows]. *)
Definition listing_of (rows : list Customer.t) : HttpResponse :=
  JsonResponse
    [("success", JBool true); ("customers", JList (listing_entry <$> rows))].

(** ** Sample data *)

Definition POST_request (form : QueryDict) : HttpRequest :=
  {| method := "POST"; GET := []; POST := form; HX_Request := false |}.

Definition GET_request (query : QueryDict) : HttpRequest :=
  {| method := "GET"; GET := query; POST := []; HX_Request := false |}.

(** A customer as [Customer.objects.create(name=...)] leaves it, at a given
    key and creation time. *)
Definition sample_customer (pk : Z) (name : string) (created : datetime)
  : Customer.t :=
  {| Customer.id := pk; Customer.name := name; Customer.email := "";
     Customer.phone := ""; Customer.address := ""; Customer.tax_id := "";
     Customer.total_spent := 0%Qc; Customer.visit_count := 0;
     Customer.notes := ""; Customer.is_active := true;
     Customer.created_at := created; Customer.updated_at := created;
     Customer.last_purchase_at := None |}.

(** A table with the single customer of the view tests' fixture. *)
Definition sample_db : gmap Z Customer.t :=
  {[ 1 := sample_customer 1 "Test Customer" 0 ]}.

(** A table of [n] active customers, customer [k] created at time [k]. *)
Definition crowd (n : nat) : gmap Z Customer.t :=
  list_to_map
    ((λ k, (Z.of_nat k, sample_customer (Z.of_nat k) "Customer" (Z.of_nat k)))
       <$> seq 1 n).

(** The table of [test_list_ajax_filter_active]: the fixture customer and an
    inactive one. *)
Definition pair_db : gmap Z Customer.t :=
  {[ 1 := sample_customer 1 "Test Customer" 0;
     2 := Customer.set_is_active false (sample_customer 2 "Inactive" 5) ]}.

(** Two active customers and an inactive one. *)
Definition mixed_db : gmap Z Customer.t :=
  {[ 1 := sample_customer 1 "bob" 10;
     2 := Customer.set_is_active false (sample_customer 2 "Zed" 20);
     3 := sample_customer 3 "Alice" 30 ]}.

(** The letters É and é, code points 201 and 233. *)
Definition E_acute : string := String "201"%char "".
Definition e_acute : string := String "233"%char "".

(** Four customers to search among: Ann Test with a phone number, the
    inactive Bob with an upper-case address, Carl, and JOSÉ. *)
Definition search_db : gmap Z Customer.t :=
  {[ 1 := Customer.set_phone "600 111 222" (sample_customer 1 "Ann Test" 10);
     2 := Customer.set_is_active false
            (Customer.set_email "bob@TESTING.example"
               (sample_customer 2 "Bob" 20));
     3 := sample_customer 3 "Carl" 30;
     4 := sample_customer 4 ("JOS" +:+ E_acute) 40 ]}.

(** Sales recorded by the sales application: two completed sales and a
    pending one for Ann, a completed sale for Bob. *)
Definition sample_sales : list Sale.t :=
  [ {| Sale.customer_name := "Ann"; Sale.status := "completed";
       Sale.total := Q2Qc (21 # 2); Sale.created_at := 100 |};
    {| Sale.customer_name := "Ann"; Sale.status := "completed";
       Sale.total := Q2Qc (9 # 2); Sale.created_at := 300 |};
    {| Sale.customer_name := "Ann"; Sale.status := "pending";
       Sale.total := Q2Qc 99; Sale.created_at := 400 |};
    {| Sale.customer_name := "Bob"; Sale.status := "completed";
       Sale.total := Q2Qc 7; Sale.created_at := 500 |} ].

(** The customer of [test_average_purchase_with_visits]: 100.00 spent over
    4 visits. *)
Definition regular_customer : Customer.t :=
  Customer.set_visit_count 4
    (Customer.set_total_spent (Qc_of_Z 100)
       (sample_customer 1 "Regular Customer" 0)).

(** The same customer with a last purchase on record, alone in a table
    and next to a customer without purchases. *)
Definition returning_customer : Customer.t :=
  Customer.set_last_purchase_at (Some 300) regular_customer.

Definition returning_db : gmap Z Customer.t :=
  {[ 1 := returning_customer; 2 := sample_customer 2 "bob" 10 ]}.


(** ** URL configuration (urls.py)

    A route is kept in parsed form: literal text and [<int:name>]
    converters.  A path is matched against a route from its first to its
    last character; the [int] converter takes a non-empty run of the digits
    0 to 9, as long a run as the rest of the route allows, and converts it
    with [int]; a run that [int] refuses does not match. *)

Inductive route_part :=
| Lit (text : string)
| IntConverter (name : string).

(** The view functions named by the URL patterns. *)
Inductive view :=
| views_customer_list
| views_customer_list_ajax
| views_customer_create
| views_customer_detail
| views_customer_edit
| views_customer_delete
| views_customer_update_stats
| views_customers_export.

Global Instance view_eq_dec : EqDecision view.
Proof. solve_decision. Defined.

Record URLPattern := path {
  route : list route_part;
  callback : view;
  url_name : string
}.

Definition urlpatterns : list URLPattern :=
  [ path [] views_customer_list "list";
    path [Lit "api/list/"] views_customer_list_ajax "list_ajax";
    path [Lit "create/"] views_customer_create "create";
    path [IntConverter "customer_id"; Lit "/"] views_customer_detail "detail";
    path [IntConverter "customer_id"; Lit "/edit/"] views_customer_edit "edit";
    path [IntConverter "customer_id"; Lit "/delete/"]
      views_customer_delete "delete";
    path [IntConverter "customer_id"; Lit "/update-stats/"]
      views_customer_update_stats "update_stats";
    path [Lit "export/"] views_customers_export "export" ].

Definition is_digit (c : ascii) : bool :=
  let n := N_of_ascii c in ((48 <=? n) && (n <=? 57))%N.

Definition digit_value (c : ascii) : Z := Z.of_N (N_of_ascii c) - 48.

(** The number a run of digits spells, most significant digit first,
    continuing from the value [acc] of the digits before it. *)
Fixpoint int_of_digits (acc : Z) (digits : string) : Z :=
  match digits with
  | EmptyString => acc
  | String c digits' => int_of_digits (10 * acc + digit_value c) digits'
  end.

(** [sys.get_int_max_str_digits()]: the longest text [int] converts. *)
Definition int_max_str_digits : nat := 4300.

(** [IntConverter.to_python], that is [int(value)], for a run of digits:
    [None] stands for the [ValueError] that [int] raises for a text of more
    than [int_max_str_digits] digits, leading zeros counted. *)
Definition to_python (value : string) : option Z :=
  if decide (String.length value ≤ int_max_str_digits)%nat
  then Some (int_of_digits 0 value)
  else None.

(** The rest of [s] after the prefix [prefix], if [s] starts with it. *)
Fixpoint removeprefix (prefix s : string) {struct prefix} : option string :=
  match prefix, s with
  | EmptyString, _ => Some s
  | String _ _, EmptyString => None
  | String a prefix', String b s' =>
      if Ascii.eqb a b then removeprefix prefix' s' else None
  end.

(** The [int] converter followed by the rest of the route, [rest].
    [taken] holds the digits taken so far, [None] before the first.  A
    longer run of digits is tried first; the run may end where it stands
    once it holds a digit, and the text taken is then converted: a
    [ValueError] of the conversion means that the path does not match. *)
Fixpoint match_int (rest : string → option (list (string * Z)))
    (name : string) (taken : option string) (s : string)
  : option (list (string * Z)) :=
  let stop :=
    match taken with
    | Some value =>
        match rest s, to_python value with
        | Some kwargs, Some n => Some ((name, n) :: kwargs)
        | _, _ => None
        end
    | None => None
    end in
  match s with
  | String c s' =>
      if is_digit c then
        match match_int rest name
                (Some (default "" taken +:+ String c "")) s' with
        | Some kwargs => Some kwargs
        | None => stop
        end
      else stop
  | EmptyString => stop
  end.

(** The keyword arguments captured when the whole of [s] matches the
    route. *)
Fixpoint match_route (r : list route_part) : string → option (list (string * Z)) :=
  match r with
  | [] => λ s, if decide (s = "") then Some [] else None
  | Lit text :: r' => λ s,
      match removeprefix text s with
      | Some s' => match_route r' s'
      | None => None
      end
  | IntConverter name :: r' => match_int (match_route r') name None
  end.

(** [resolve(path)]: the first pattern that matches, with the captured
    arguments. *)
Fixpoint resolve_in (patterns : list URLPattern) (s : string)
  : option (URLPattern * list (string * Z)) :=
  match patterns with
  | [] => None
  | p :: patterns' =>
      match match_route (route p) s with
      | Some kwargs => Some (p, kwargs)
      | None => resolve_in patterns' s
      end
  end.

Definition resolve (s : string) : option (URLPattern * list (string * Z)) :=
  resolve_in urlpatterns s.

(** A run of the digits 0 to 9. *)
Fixpoint all_digits (s : string) : bool :=
  match s with
  | EmptyString => true
  | String c s' => is_digit c && all_digits s'
  end.

(** A text that can stand for a customer identifier in a path: a run of
    1 to 4300 digits. *)
Definition identifier (digits : string) : Prop :=
  digits ≠ "" ∧ all_digits digits = true
  ∧ (String.length digits ≤ int_max_str_digits)%nat.

(** The paths of the module, read off [urlpatterns]: which view a path
    reaches and with which keyword arguments. *)
Inductive routes_to : string → view → list (string * Z) → Prop :=
| routes_to_list : routes_to "" views_customer_list []
| routes_to_list_ajax : routes_to "api/list/" views_customer_list_ajax []
| routes_to_create : routes_to "create/" views_customer_create []
| routes_to_detail digits :
    identifier digits →
    routes_to (digits +:+ "/") views_customer_detail
      [("customer_id", int_of_digits 0 digits)]
| routes_to_edit digits :
    identifier digits →
    routes_to (digits +:+ "/edit/") views_customer_edit
      [("customer_id", int_of_digits 0 digits)]
| routes_to_delete digits :
    identifier digits →
    routes_to (digits +:+ "/delete/") views_customer_delete
      [("customer_id", int_of_digits 0 digits)]
| routes_to_update_stats digits :
    identifier digits →
    routes_to (digits +:+ "/update-stats/") views_customer_update_stats
      [("customer_id", int_of_digits 0 digits)]
| routes_to_export : routes_to "export/" views_customers_export [].

(** What one request brings with it: the clock, the sales application as
    installed at that moment, the request and the path below the mount
    point of the module. *)
Record Call := {
  call_now : datetime;
  call_sales_app : option (list Sale.t);
  call_request : HttpRequest;
  call_path : string
}.

(** [callback(request, **kwargs)]: [None] when the keyword arguments do not
    fit the parameters of the view (a [TypeError]). *)
Definition call_view (call : Call) (v : view) (kwargs : list (string * Z))
  : option (DB Customer.t HttpResponse) :=
  let now := call_now call in
  let sales_app := call_sales_app call in
  let request := call_request call in
  let with_customer_id (f : Z → DB Customer.t HttpResponse) :=
    match kwargs with
    | [(key, customer_id)] =>
        if decide (key = "customer_id") then Some (f customer_id) else None
    | _ => None
    end in
  let without_arguments (f : DB Customer.t HttpResponse) :=
    match kwargs with
    | [] => Some f
    | _ => None
    end in
  match v with
  | views_customer_list => without_arguments (customer_list request)
  | views_customer_list_ajax => without_arguments (customer_list_ajax request)
  | views_customer_create => without_arguments (customer_create now request)
  | views_customer_detail =>
      with_customer_id (customer_detail sales_app request)
  | views_customer_edit => with_customer_id (customer_edit now request)
  | views_customer_delete => with_customer_id (customer_delete now request)
  | views_customer_update_stats =>
      with_customer_id (customer_update_stats sales_app now request)
  | views_customers_export => without_arguments (customers_export now request)
  end.

(** The answer of the module to one request: a 404 page when no pattern
    matches the path, otherwise what the view and the framework around it
    produce. *)
Definition dispatch (call : Call) (db : gmap Z Customer.t)
  : HttpResponse * gmap Z Customer.t :=
  match resolve (call_path call) with
  | None => (HttpResponseNotFound "Not Found", db)
  | Some (pattern, kwargs) =>
      match call_view call (callback pattern) kwargs with
      | Some handler => get_response handler db
      | None => (HttpResponseServerError, db)
      end
  end.

(** The table after a sequence of requests, served one after the other. *)
Definition serve (calls : list Call) (db : gmap Z Customer.t)
  : gmap Z Customer.t :=
  foldl (λ db call, (dispatch call db).2) db calls.

(** The handlers a request can reach, with the identifiers a path can
    spell. *)
Inductive is_handler (call : Call) : DB Customer.t HttpResponse → Prop :=
| handler_list : is_handler call (customer_list (call_request call))
| handler_list_ajax : is_handler call (customer_list_ajax (call_request call))
| handler_create :
    is_handler call (customer_create (call_now call) (call_request call))
| handler_detail pk :
    0 ≤ pk →
    is_handler call
      (customer_detail (call_sales_app call) (call_request call) pk)
| handler_edit pk :
    0 ≤ pk →
    is_handler call (customer_edit (call_now call) (call_request call) pk)
| handler_delete pk :
    0 ≤ pk →
    is_handler call (customer_delete (call_now call) (call_request call) pk)
| handler_update_stats pk :
    0 ≤ pk →
    is_handler call
      (customer_update_stats (call_sales_app call) (call_now call)
         (call_request call) pk)
| handler_export :
    is_handler call (customers_export (call_now call) (call_request call)).

(** A name as the create and edit handlers store it: not empty and without
    white space at either end. *)
Definition clean (name : string) : Prop := name ≠ "" ∧ strip name = name.

(** What one request can do to the table: nothing, replace one stored row
    by a row with the same identifier and creation time, or add one row
    under an unused key. *)
Inductive table_step (db : gmap Z Customer.t) : gmap Z Customer.t → Prop :=
| table_unchanged : table_step db db
| row_replaced pk c c' :
    db !! pk = Some c →
    Customer.id c' = Customer.id c →
    Customer.created_at c' = Customer.created_at c →
    Customer.name c' = Customer.name c ∨ clean (Customer.name c') →
    table_step db (<[Customer.id c := c']> db)
| row_added row :
    db !! Customer.id row = None →
    clean (Customer.name row) →
    table_step db (<[Customer.id row := row]> db).

(** Every stored name is non-empty and trimmed. *)
Definition names_clean (db : gmap Z Customer.t) : Prop :=
  map_Forall (λ _ c, clean (Customer.name c)) db.

(** ** What a computation may do *)

(** A computation that never writes to the table. *)
Definition read_only {A} (m : DB Customer.t A) : Prop :=
  ∀ db, (m db).2 = db.

(** Two requests: the soft delete of customer 1, then the creation of a
    customer. *)
Definition sample_calls : list Call :=
  [ {| call_now := 7; call_sales_app := None;
       call_request := POST_request []; call_path := "1/delete/" |};
    {| call_now := 8; call_sales_app := None;
       call_request := POST_request [("name", " New Customer ")];
       call_path := "create/" |} ].

(** A table with the customer Ann alone. *)
Definition ann_db : gmap Z Customer.t := {[ 1 := sample_customer 1 "Ann" 0 ]}.

(** * Properties *)

(** ** Text *)

Lemma append_nil_l (s : string) : "" +:+ s = s.
Proof. reflexivity. Qed.

Lemma append_cons (c : ascii) (s t : string) :
  String c s +:+ t = String c (s +:+ t).
Proof. reflexivity. Qed.

Lemma lstrip_whitespace_only (s : string) :
  whitespace_only s = true → lstrip s = "".
Proof.
  induction s as [|c s IH]; simpl; [done|].
  intros [Hc Hs]%andb_prop. rewrite Hc. auto.
Qed.

Lemma whitespace_only_lstrip (s : string) :
  whitespace_only (lstrip s) = true → whitespace_only s = true.
Proof.
  induction s as [|c s IH]; simpl; [done|].
  destruct (isspace c) eqn:Hc; simpl; [auto|].
  rewrite Hc. done.
Qed.

Lemma rstrip_empty (s : string) :
  rstrip s = "" → whitespace_only s = true.
Proof.
  induction s as [|c s IH]; simpl; [done|].
  destruct (rstrip s) eqn:Hr; [|done].
  destruct (isspace c); [|done]. intros _. by rewrite IH.
Qed.

(** Trimming leaves nothing exactly when the text is empty or made of
    white space only. *)
Lemma strip_empty_iff (s : string) :
  strip s = "" ↔ whitespace_only s = true.
Proof.
  unfold strip. split.
  - intros H. by apply whitespace_only_lstrip, rstrip_empty.
  - intros H. by rewrite lstrip_whitespace_only.
Qed.

Lemma startswith_spec (s p : string) :
  startswith s p = true ↔ ∃ post, s = p +:+ post.
Proof.
  revert s. induction p as [|a p IH]; intros s; simpl.
  - split; [intros _; by exists s|done].
  - destruct s as [|b s].
    + split; [done|]. intros [post H]. by rewrite append_cons in H.
    + rewrite andb_true_iff, IH. split.
      * intros [->%Ascii.eqb_eq [post ->]]. by exists post.
      * intros [post H]. rewrite append_cons in H. injection H as -> ->.
        split; [apply Ascii.eqb_refl|by exists post].
Qed.

(** [contains s p] decides whether [p] occurs in [s] as a contiguous
    piece. *)
Lemma contains_spec (s p : string) :
  contains s p = true ↔ ∃ pre post, s = pre +:+ p +:+ post.
Proof.
  induction s as [|c s IH].
  - simpl. rewrite orb_false_r, startswith_spec. split.
    + intros [post H]. by exists "", post.
    + intros [pre [post H]]. destruct pre as [|? ?]; [|done].
      by exists post.
  - cbn [contains]. rewrite orb_true_iff, startswith_spec, IH. split.
    + intros [[post H]|[pre [post H]]].
      * by exists "", post.
      * exists (String c pre), post. by rewrite append_cons, H.
    + intros [pre [post H]]. destruct pre as [|c' pre].
      * left. by exists post.
      * right. rewrite append_cons in H. injection H as -> ->.
        by exists pre, post.
Qed.

(** The lookup [icontains]: containment after ASCII case folding of both
    sides. *)
Lemma icontains_spec (field text : string) :
  icontains field text = true
  ↔ ∃ pre post, lower field = pre +:+ lower text +:+ post.
Proof. apply contains_spec. Qed.

Example strip_inner_space : strip "  Ann Lee  " = "Ann Lee".
Proof. reflexivity. Qed.

Example strip_tabs_newlines :
  strip (String "009" (String "010" " ")) = "".
Proof. reflexivity. Qed.

Example icontains_ignores_case : icontains "Test Customer" "CUST" = true.
Proof. reflexivity. Qed.

Example icontains_no_match : icontains "Test Customer" "NotFound" = false.
Proof. reflexivity. Qed.

(** [QueryDict.get] returns the last value given for a key. *)
Example qd_get_last : qd_get [("a", "1"); ("b", "2"); ("a", "3")] "a" "" = "3".
Proof. reflexivity. Qed.

(** ** Decimal arithmetic *)

Section decimal_rounding.
Import decimal.



Local Open Scope Q_scope.








Global Instance round_half_even_proper : Proper (Qeq ==> eq) round_half_even.
Proof.
  intros y1 y2 Hy. unfold round_half_even.
  rewrite (Qfloor_comp _ _ Hy).
  by rewrite Hy.
Qed.












End decimal_rounding.

(** ** The model methods *)

Lemma truediv_nonzero (x : Decimal) (n : Z) :
  n ≠ 0 →
  Customer.truediv x n = Ok (decimal.context_round (x / Qc_of_Z n)%Qc).
Proof. intros Hn. unfold Customer.truediv. by rewrite decide_False. Qed.

Lemma average_purchase_positive (c : Customer.t) :
  (0 < Customer.visit_count c)%Z →
  Customer.average_purchase c
  = Ok (decimal.context_round
          (Customer.total_spent c / Qc_of_Z (Customer.visit_count c))%Qc).
Proof.
  intros Hpos. unfold Customer.average_purchase.
  rewrite decide_True by done. apply truediv_nonzero. lia.
Qed.

Lemma average_purchase_not_positive (c : Customer.t) :
  (Customer.visit_count c ≤ 0)%Z → Customer.average_purchase c = Ok 0%Qc.
Proof.
  intros Hle. unfold Customer.average_purchase. by rewrite decide_False by lia.
Qed.

Lemma average_purchase_returns (c : Customer.t) :
  ∃ x, Customer.average_purchase c = Ok x.
Proof.
  destruct (decide (0 < Customer.visit_count c)%Z).
  - eexists. by apply average_purchase_positive.
  - exists 0%Qc. apply average_purchase_not_positive. lia.
Qed.

(** The worked example of the specification: 100.00 over 4 visits
    averages 25.00. *)
Lemma average_purchase_regular_customer :
  Customer.average_purchase regular_customer = Ok (Qc_of_Z 25).
Proof.
  rewrite average_purchase_positive by reflexivity.
  f_equal. apply Qc_is_canon. by vm_compute.
Qed.




(** The same division on a small amount: 0.01 over 3 visits averages
    0.003333333333333333333333333333. *)
Example average_purchase_small_amount :
  Customer.average_purchase
    (Customer.set_visit_count 3
       (Customer.set_total_spent (Q2Qc (1 # 100)) regular_customer))
  = Ok (Q2Qc (3333333333333333333333333333
              # 1000000000000000000000000000000)).
Proof.
  rewrite average_purchase_positive by reflexivity.
  f_equal; apply Qc_is_canon; by vm_compute.
Qed.

(** C4: without the sales application [update_stats] returns normally with
    the instance and the table exactly as they were (nothing is assigned and
    nothing is saved), and [get_recent_purchases] returns the empty list. *)
Theorem sales_unreachable (now : datetime) (c : Customer.t) (limit : nat)
    (db : gmap Z Customer.t) :
  Customer.update_stats None now c db = (Ok c, db)
  ∧ Customer.get_recent_purchases None c limit db = (Ok [], db).
Proof. split; reflexivity. Qed.

(** ** Handlers: unknown identifiers *)

Lemma require_http_methods_permitted (permitted : list string)
    (request : HttpRequest) (view : DB Customer.t HttpResponse) :
  method request ∈ permitted →
  require_http_methods permitted request view = view.
Proof. intros H. unfold require_http_methods. by rewrite decide_True. Qed.

Lemma get_object_or_404_found (db : gmap Z Customer.t) (pk : Z) (c : Customer.t) :
  db !! pk = Some c → get_object_or_404 pk db = (Ok c, db).
Proof. intros H. unfold get_object_or_404. by rewrite H. Qed.

Lemma get_object_or_404_missing (db : gmap Z Customer.t) (pk : Z) :
  db !! pk = None →
  get_object_or_404 pk db
  = (Raise (Exn Http404 "No Customer matches the given query."), db).
Proof. intros H. unfold get_object_or_404. by rewrite H. Qed.

(** The detail handler lets [Http404] through: the answer is a 404. *)
Lemma customer_detail_unknown (sales_app : option (list Sale.t))
    (request : HttpRequest) (pk : Z) (db : gmap Z Customer.t) :
  method request = "GET" → db !! pk = None →
  get_response (customer_detail sales_app request pk) db
  = (HttpResponseNotFound "No Customer matches the given query.", db).
Proof.
  intros Hm Hpk. unfold get_response, customer_detail.
  rewrite require_http_methods_permitted by (rewrite Hm; set_solver).
  unfold mbind, DB_bind. by rewrite get_object_or_404_missing.
Qed.

(** So does the edit handler, whose lookup precedes the [try] block. *)
Lemma customer_edit_unknown (now : datetime) (request : HttpRequest) (pk : Z)
    (db : gmap Z Customer.t) :
  method request ∈ ["GET"; "POST"] → db !! pk = None →
  get_response (customer_edit now request pk) db
  = (HttpResponseNotFound "No Customer matches the given query.", db).
Proof.
  intros Hm Hpk. unfold get_response, customer_edit.
  rewrite require_http_methods_permitted by done.
  unfold mbind, DB_bind. by rewrite get_object_or_404_missing.
Qed.

(** [Http404] derives from [Exception], so [except Exception] handles
    it. *)
Lemma Http404_isinstance_Exception (msg : string) :
  isinstance (Exn Http404 msg) Exception = true.
Proof. reflexivity. Qed.

(** In the delete handler the lookup sits inside [try ... except
    Exception]: the [Http404] is caught and reported in a JSON body, with
    status 200. *)
Lemma customer_delete_unknown (now : datetime) (request : HttpRequest) (pk : Z)
    (db : gmap Z Customer.t) :
  method request = "POST" → db !! pk = None →
  get_response (customer_delete now request pk) db
  = (json_error "No Customer matches the given query.", db).
Proof.
  intros Hm Hpk. unfold get_response, customer_delete.
  rewrite require_http_methods_permitted by (rewrite Hm; set_solver).
  unfold try_except, mbind, DB_bind.
  by rewrite get_object_or_404_missing.
Qed.

(** The same holds for the update-stats handler. *)
Lemma customer_update_stats_unknown (sales_app : option (list Sale.t))
    (now : datetime) (request : HttpRequest) (pk : Z) (db : gmap Z Customer.t) :
  method request = "POST" → db !! pk = None →
  get_response (customer_update_stats sales_app now request pk) db
  = (json_error "No Customer matches the given query.", db).
Proof.
  intros Hm Hpk. unfold get_response, customer_update_stats.
  rewrite require_http_methods_permitted by (rewrite Hm; set_solver).
  unfold try_except, mbind, DB_bind.
  by rewrite get_object_or_404_missing.
Qed.

(** C1: the request of [test_delete_customer_not_found] (identifier 99999,
    empty table) is answered by the delete handler with status 200 and a JSON
    error body, not with a 404; the update-stats handler answers the same
    way, while the detail and edit handlers answer 404. *)
Theorem unknown_id_responses :
  let request := POST_request [] in
  (get_response (customer_delete 0 request 99999) ∅
   = (json_error "No Customer matches the given query.", ∅)
   ∧ status_code (get_response (customer_delete 0 request 99999) ∅).1 = 200)
  ∧ (get_response (customer_update_stats None 0 request 99999) ∅
     = (json_error "No Customer matches the given query.", ∅)
     ∧ status_code
         (get_response (customer_update_stats None 0 request 99999) ∅).1 = 200)
  ∧ status_code (get_response (customer_detail None (GET_request []) 99999) ∅).1
    = 404
  ∧ status_code (get_response (customer_edit 0 request 99999) ∅).1 = 404.
Proof.
  cbv zeta.
  rewrite customer_delete_unknown, customer_update_stats_unknown,
    customer_detail_unknown, customer_edit_unknown
    by first [done | apply lookup_empty | set_solver].
  done.
Qed.

(** ** Handlers: validation and writes *)

Lemma keyed_lookup (db : gmap Z Customer.t) (pk : Z) (c : Customer.t) :
  keyed db → db !! pk = Some c → Customer.id c = pk.
Proof. intros Hk H. exact (Hk pk c H). Qed.

Lemma keyed_insert (db : gmap Z Customer.t) (c : Customer.t) :
  keyed db → keyed (<[Customer.id c := c]> db).
Proof. intros Hk. by apply map_Forall_insert_2. Qed.

Lemma keyed_empty : keyed ∅.
Proof. apply map_Forall_empty. Qed.

Lemma keyed_sample_db : keyed sample_db.
Proof. unfold keyed. apply (bool_decide_unpack _). by vm_compute. Qed.

(** Saving an instance that has the primary key of a stored row updates
    the row: [updated_at] is refreshed and [created_at] is kept. *)
Lemma save_update (now : datetime) (c row : Customer.t) (pk : Z)
    (db : gmap Z Customer.t) :
  db !! pk = Some row → Customer.id row = Customer.id c →
  Customer.save now c db
  = (Ok (Customer.set_updated_at now c),
     <[Customer.id c := Customer.set_updated_at now c]> db).
Proof.
  intros Hpk Hid. unfold Customer.save. cbv zeta.
  rewrite decide_True; [done|]. by exists pk, row.
Qed.

(** Saving an instance whose primary key no row has inserts it:
    [created_at] and [updated_at] are both set. *)
Lemma save_insert (now : datetime) (c : Customer.t) (db : gmap Z Customer.t) :
  (∀ pk row, db !! pk = Some row → Customer.id row ≠ Customer.id c) →
  Customer.save now c db
  = (Ok (Customer.set_created_at now (Customer.set_updated_at now c)),
     <[Customer.id c :=
         Customer.set_created_at now (Customer.set_updated_at now c)]> db).
Proof.
  intros Hnone. unfold Customer.save. cbv zeta.
  rewrite decide_False; [done|]. intros (pk & row & Hpk & Hid).
  by apply (Hnone pk row).
Qed.

(** In both cases the instance is written under its primary key. *)
Lemma save_table (now : datetime) (c : Customer.t) (db : gmap Z Customer.t) :
  ∃ c', Customer.save now c db = (Ok c', <[Customer.id c := c']> db)
    ∧ Customer.id c' = Customer.id c.
Proof.
  unfold Customer.save. cbv zeta. case_decide; by eexists.
Qed.

(** A create POST with a blank name is rejected before anything is
    written. *)
Lemma customer_create_blank_name (now : datetime) (request : HttpRequest)
    (db : gmap Z Customer.t) :
  method request = "POST" →
  strip (qd_get (POST request) "name" "") = "" →
  customer_create now request db
  = (Ok (json_error "El nombre es obligatorio"), db).
Proof.
  intros Hm Hname. unfold customer_create.
  rewrite require_http_methods_permitted by (rewrite Hm; set_solver).
  rewrite decide_True by done. unfold try_except.
  cbv zeta. rewrite decide_True by done. reflexivity.
Qed.

(** An edit POST with a blank name is rejected after the instance has been
    assigned to but before [save]: the table is not written. *)
Lemma customer_edit_blank_name (now : datetime) (request : HttpRequest)
    (pk : Z) (c : Customer.t) (db : gmap Z Customer.t) :
  method request = "POST" →
  strip (qd_get (POST request) "name" "") = "" →
  db !! pk = Some c →
  customer_edit now request pk db
  = (Ok (json_error "El nombre es obligatorio"), db).
Proof.
  intros Hm Hname Hpk. unfold customer_edit.
  rewrite require_http_methods_permitted by (rewrite Hm; set_solver).
  unfold mbind, DB_bind. rewrite (get_object_or_404_found _ _ _ Hpk).
  rewrite decide_True by done. unfold try_except.
  cbv zeta. rewrite decide_True by done. reflexivity.
Qed.

(** With a blank name the edit handler never writes, whether or not the
    identifier resolves. *)
Lemma customer_edit_blank_name_table (now : datetime) (request : HttpRequest)
    (pk : Z) (db : gmap Z Customer.t) :
  method request = "POST" →
  strip (qd_get (POST request) "name" "") = "" →
  (customer_edit now request pk db).2 = db.
Proof.
  intros Hm Hname. destruct (db !! pk) as [c|] eqn:Hpk.
  - by rewrite (customer_edit_blank_name _ _ _ c).
  - unfold customer_edit.
    rewrite require_http_methods_permitted by (rewrite Hm; set_solver).
    unfold mbind, DB_bind. by rewrite get_object_or_404_missing.
Qed.

(** C2: a create POST or an edit POST whose name is empty or made of white
    space only is answered with [{success: false, error: msg}] for a
    non-empty [msg], and the table is left exactly as it was: create inserts
    no row, edit changes no stored field of the targeted customer (or of any
    other). *)
Theorem blank_name_rejected (now : datetime) (request : HttpRequest)
    (db : gmap Z Customer.t) :
  method request = "POST" →
  whitespace_only (qd_get (POST request) "name" "") = true →
  ∃ msg, msg ≠ ""
    ∧ customer_create now request db = (Ok (json_error msg), db)
    ∧ ∀ pk,
        (customer_edit now request pk db).2 = db
        ∧ ∀ c, db !! pk = Some c →
            customer_edit now request pk db = (Ok (json_error msg), db).
Proof.
  intros Hm Hname%strip_empty_iff.
  exists "El nombre es obligatorio". split; [done|]. split.
  - by apply customer_create_blank_name.
  - intros pk. split.
    + by apply customer_edit_blank_name_table.
    + intros c Hpk. by apply (customer_edit_blank_name _ _ _ c).
Qed.

Lemma blank_name_rejected_witness :
  let request := POST_request [("name", "   "); ("email", "new@example.com")] in
  method request = "POST"
  ∧ whitespace_only (qd_get (POST request) "name" "") = true
  ∧ ∃ msg, msg ≠ ""
    ∧ customer_create 5 request sample_db = (Ok (json_error msg), sample_db)
    ∧ ∀ pk,
        (customer_edit 5 request pk sample_db).2 = sample_db
        ∧ ∀ c, sample_db !! pk = Some c →
            customer_edit 5 request pk sample_db
            = (Ok (json_error msg), sample_db).
Proof.
  cbv zeta. split; [reflexivity|]. split; [reflexivity|].
  apply (blank_name_rejected 5
           (POST_request [("name", "   "); ("email", "new@example.com")])
           sample_db); reflexivity.
Defined.

Lemma customer_delete_found (now : datetime) (request : HttpRequest) (pk : Z)
    (c : Customer.t) (db : gmap Z Customer.t) :
  method request = "POST" → db !! pk = Some c →
  customer_delete now request pk db
  = (Ok (JsonResponse
           [("success", JBool true);
            ("message", JStr "Cliente desactivado correctamente")]),
     <[Customer.id c :=
         Customer.set_updated_at now (Customer.set_is_active false c)]> db).
Proof.
  intros Hm Hpk. unfold customer_delete.
  rewrite require_http_methods_permitted by (rewrite Hm; set_solver).
  unfold try_except, mbind, DB_bind.
  rewrite (get_object_or_404_found _ _ _ Hpk).
  by rewrite (save_update now _ c pk db Hpk).
Qed.

(** C9: a soft-delete that succeeds stores the customer under the same
    identifier with [is_active = false] and a refreshed [updated_at]; every
    other field of the row and every other row is as before, so the record
    is still found by its identifier. *)
Theorem soft_delete_keeps_record (now : datetime) (request : HttpRequest)
    (pk : Z) (c : Customer.t) (db : gmap Z Customer.t) :
  method request = "POST" → keyed db → db !! pk = Some c →
  ∃ body db',
    customer_delete now request pk db
    = (Ok (JsonResponse (("success", JBool true) :: body)), db')
    ∧ db' !! pk
      = Some {| Customer.id := pk;
                Customer.name := Customer.name c;
                Customer.email := Customer.email c;
                Customer.phone := Customer.phone c;
                Customer.address := Customer.address c;
                Customer.tax_id := Customer.tax_id c;
                Customer.total_spent := Customer.total_spent c;
                Customer.visit_count := Customer.visit_count c;
                Customer.notes := Customer.notes c;
                Customer.is_active := false;
                Customer.created_at := Customer.created_at c;
                Customer.updated_at := now;
                Customer.last_purchase_at := Customer.last_purchase_at c |}
    ∧ (∀ other, other ≠ pk → db' !! other = db !! other)
    ∧ keyed db'.
Proof.
  intros Hm Hk Hpk. pose proof (keyed_lookup _ _ _ Hk Hpk) as Hid.
  eexists _, _. split; [by apply customer_delete_found|].
  rewrite Hid. split; [|split].
  - rewrite lookup_insert_eq. unfold Customer.set_updated_at,
      Customer.set_is_active. simpl. by rewrite Hid.
  - intros other Hne. by rewrite lookup_insert_ne.
  - rewrite <- Hid at 1. apply (keyed_insert _ (Customer.set_updated_at now
      (Customer.set_is_active false c))), Hk.
Qed.

Lemma soft_delete_keeps_record_witness :
  let request := POST_request [] in
  let c := sample_customer 1 "Test Customer" 0 in
  method request = "POST" ∧ keyed sample_db ∧ sample_db !! 1 = Some c
  ∧ ∃ body db',
      customer_delete 9 request 1 sample_db
      = (Ok (JsonResponse (("success", JBool true) :: body)), db')
      ∧ db' !! 1
        = Some {| Customer.id := 1;
                  Customer.name := Customer.name c;
                  Customer.email := Customer.email c;
                  Customer.phone := Customer.phone c;
                  Customer.address := Customer.address c;
                  Customer.tax_id := Customer.tax_id c;
                  Customer.total_spent := Customer.total_spent c;
                  Customer.visit_count := Customer.visit_count c;
                  Customer.notes := Customer.notes c;
                  Customer.is_active := false;
                  Customer.created_at := Customer.created_at c;
                  Customer.updated_at := 9;
                  Customer.last_purchase_at := Customer.last_purchase_at c |}
      ∧ (∀ other, other ≠ 1 → db' !! other = sample_db !! other)
      ∧ keyed db'.
Proof.
  cbv zeta. split; [reflexivity|]. split; [unfold keyed; apply (bool_decide_unpack _); by vm_compute|].
  split; [reflexivity|].
  apply (soft_delete_keeps_record 9 (POST_request []) 1
           (sample_customer 1 "Test Customer" 0) sample_db);
    [reflexivity|unfold keyed; apply (bool_decide_unpack _); by vm_compute|reflexivity].
Defined.

(** The row an edit POST stores for customer [c]. *)
Lemma customer_edit_valid (now : datetime) (request : HttpRequest) (pk : Z)
    (c : Customer.t) (db : gmap Z Customer.t) :
  method request = "POST" → db !! pk = Some c →
  strip (qd_get (POST request) "name" "") ≠ "" →
  customer_edit now request pk db
  = (Ok (JsonResponse
           [("success", JBool true);
            ("message", JStr "Cliente actualizado correctamente")]),
     <[Customer.id c :=
         {| Customer.id := Customer.id c;
            Customer.name := strip (qd_get (POST request) "name" "");
            Customer.email := strip (qd_get (POST request) "email" "");
            Customer.phone := strip (qd_get (POST request) "phone" "");
            Customer.address := strip (qd_get (POST request) "address" "");
            Customer.tax_id := strip (qd_get (POST request) "tax_id" "");
            Customer.total_spent := Customer.total_spent c;
            Customer.visit_count := Customer.visit_count c;
            Customer.notes := strip (qd_get (POST request) "notes" "");
            Customer.is_active :=
              bool_decide (qd_lookup (POST request) "is_active" = Some "on");
            Customer.created_at := Customer.created_at c;
            Customer.updated_at := now;
            Customer.last_purchase_at := Customer.last_purchase_at c |}]> db).
Proof.
  intros Hm Hpk Hname. unfold customer_edit.
  rewrite require_http_methods_permitted by (rewrite Hm; set_solver).
  unfold mbind, DB_bind. rewrite (get_object_or_404_found _ _ _ Hpk).
  rewrite decide_True by done. unfold try_except.
  cbv zeta. rewrite decide_False by done.
  by rewrite (save_update now _ c pk db Hpk).
Qed.

(** C10: a successful edit POST replaces the six text fields by the trimmed
    POST values (the empty string for an absent field) and sets [is_active]
    to whether the POST field [is_active] is exactly ["on"]; the statistics,
    the identifier and [created_at] are kept, [updated_at] is refreshed.  In
    particular a POST without [is_active] deactivates the customer. *)
Theorem edit_replaces_fields (now : datetime) (request : HttpRequest)
    (pk : Z) (c : Customer.t) (db : gmap Z Customer.t) :
  method request = "POST" → keyed db → db !! pk = Some c →
  strip (qd_get (POST request) "name" "") ≠ "" →
  ∃ body db' c',
    customer_edit now request pk db
    = (Ok (JsonResponse (("success", JBool true) :: body)), db')
    ∧ db' !! pk = Some c'
    ∧ (Customer.name c' = strip (qd_get (POST request) "name" "")
       ∧ Customer.email c' = strip (qd_get (POST request) "email" "")
       ∧ Customer.phone c' = strip (qd_get (POST request) "phone" "")
       ∧ Customer.address c' = strip (qd_get (POST request) "address" "")
       ∧ Customer.tax_id c' = strip (qd_get (POST request) "tax_id" "")
       ∧ Customer.notes c' = strip (qd_get (POST request) "notes" ""))
    ∧ (Customer.is_active c' = true
       ↔ qd_lookup (POST request) "is_active" = Some "on")
    ∧ (qd_lookup (POST request) "is_active" = None
       → Customer.is_active c' = false)
    ∧ (Customer.id c' = pk
       ∧ Customer.total_spent c' = Customer.total_spent c
       ∧ Customer.visit_count c' = Customer.visit_count c
       ∧ Customer.created_at c' = Customer.created_at c
       ∧ Customer.last_purchase_at c' = Customer.last_purchase_at c
       ∧ Customer.updated_at c' = now)
    ∧ (∀ other, other ≠ pk → db' !! other = db !! other).
Proof.
  intros Hm Hk Hpk Hname. pose proof (keyed_lookup _ _ _ Hk Hpk) as Hid.
  eexists _, _, _. split; [by apply customer_edit_valid|].
  rewrite Hid. split; [apply lookup_insert_eq|]. simpl.
  split; [done|]. split; [apply bool_decide_eq_true|].
  split; [intros H; rewrite H; done|].
  split; [done|].
  intros other Hne. by rewrite lookup_insert_ne.
Qed.

Lemma edit_replaces_fields_witness :
  let request :=
    POST_request [("name", " Updated Name "); ("email", "updated@example.com")] in
  let c := sample_customer 1 "Test Customer" 0 in
  method request = "POST" ∧ keyed sample_db ∧ sample_db !! 1 = Some c
  ∧ strip (qd_get (POST request) "name" "") ≠ ""
  ∧ ∃ body db' c',
      customer_edit 9 request 1 sample_db
      = (Ok (JsonResponse (("success", JBool true) :: body)), db')
      ∧ db' !! 1 = Some c'
      ∧ (Customer.name c' = strip (qd_get (POST request) "name" "")
         ∧ Customer.email c' = strip (qd_get (POST request) "email" "")
         ∧ Customer.phone c' = strip (qd_get (POST request) "phone" "")
         ∧ Customer.address c' = strip (qd_get (POST request) "address" "")
         ∧ Customer.tax_id c' = strip (qd_get (POST request) "tax_id" "")
         ∧ Customer.notes c' = strip (qd_get (POST request) "notes" ""))
      ∧ (Customer.is_active c' = true
         ↔ qd_lookup (POST request) "is_active" = Some "on")
      ∧ (qd_lookup (POST request) "is_active" = None
         → Customer.is_active c' = false)
      ∧ (Customer.id c' = 1
         ∧ Customer.total_spent c' = Customer.total_spent c
         ∧ Customer.visit_count c' = Customer.visit_count c
         ∧ Customer.created_at c' = Customer.created_at c
         ∧ Customer.last_purchase_at c' = Customer.last_purchase_at c
         ∧ Customer.updated_at c' = 9)
      ∧ (∀ other, other ≠ 1 → db' !! other = sample_db !! other).
Proof.
  cbv zeta. split; [reflexivity|]. split; [unfold keyed; apply (bool_decide_unpack _); by vm_compute|].
  split; [reflexivity|]. split; [discriminate|].
  apply (edit_replaces_fields 9
           (POST_request
              [("name", " Updated Name "); ("email", "updated@example.com")])
           1 (sample_customer 1 "Test Customer" 0) sample_db);
    [reflexivity|unfold keyed; apply (bool_decide_unpack _); by vm_compute|reflexivity|discriminate].
Defined.

(** The edit of the witness above, spelled out: the name is trimmed, the
    absent fields become empty and the customer is deactivated. *)
Example edit_without_is_active :
  (customer_edit 9
     (POST_request [("name", " Updated Name "); ("email", "updated@example.com")])
     1 sample_db).2 !! 1
  = Some (Customer.set_updated_at 9
            (Customer.set_is_active false
               (Customer.set_email "updated@example.com"
                  (sample_customer 1 "Updated Name" 0)))).
Proof. reflexivity. Qed.

(** ** Ordering *)

Section order_by.
Context {A : Type} (R : relation A).
Context `{!RelDecision R, !Transitive R, !Total R}.

Lemma order_by_elem_of (l : list A) (x : A) :
  x ∈ merge_sort R l ↔ x ∈ l.
Proof. by rewrite merge_sort_Permutation. Qed.

Lemma order_by_length (l : list A) :
  length (merge_sort R l) = length l.
Proof. by rewrite merge_sort_Permutation. Qed.

Lemma order_by_nil (l : list A) : merge_sort R l = [] → l = [].
Proof.
  intros H. apply length_zero_iff_nil.
  by rewrite <- order_by_length, H.
Qed.

(** The first row of an ordered query set is a row of the query set that
    precedes every row. *)
Lemma order_by_first (l : list A) :
  match head (merge_sort R l) with
  | None => l = []
  | Some x => x ∈ l ∧ ∀ y, y ∈ l → R x y
  end.
Proof.
  pose proof (StronglySorted_merge_sort R l) as Hs.
  destruct (merge_sort R l) as [|x rest] eqn:Hl; simpl.
  - by apply order_by_nil.
  - split.
    + apply order_by_elem_of. rewrite Hl. left.
    + intros y Hy. apply order_by_elem_of in Hy. rewrite Hl in Hy.
      apply StronglySorted_inv in Hs as [_ Hall].
      apply elem_of_cons in Hy as [->|Hy].
      * by destruct (total R x x).
      * by eapply Forall_forall in Hall.
  Qed.

(** Slicing an ordered query set keeps its first rows: whatever is cut
    off comes after everything that is kept. *)
Lemma order_by_take (n : nat) (l : list A) (x y : A) :
  x ∈ take n (merge_sort R l) →
  y ∈ drop n (merge_sort R l) →
  R x y.
Proof.
  pose proof (StronglySorted_merge_sort R l) as Hs.
  rewrite <- (take_drop n (merge_sort R l)) in Hs.
  intros Hx Hy. by eapply StronglySorted_app_1_elem_of in Hs.
Qed.

Lemma order_by_take_sorted (n : nat) (l : list A) :
  StronglySorted R (take n (merge_sort R l)).
Proof.
  pose proof (StronglySorted_merge_sort R l) as Hs.
  rewrite <- (take_drop n (merge_sort R l)) in Hs.
  by apply StronglySorted_app_1_l in Hs.
Qed.
End order_by.

Global Instance newest_sale_first_trans : Transitive Customer.newest_sale_first.
Proof. intros a b c. unfold Customer.newest_sale_first. lia. Qed.

Global Instance newest_sale_first_total : Total Customer.newest_sale_first.
Proof. intros a b. unfold Customer.newest_sale_first. lia. Qed.

Global Instance newest_first_trans : Transitive Customer.newest_first.
Proof. intros a b c. unfold Customer.newest_first. lia. Qed.

Global Instance newest_first_total : Total Customer.newest_first.
Proof. intros a b. unfold Customer.newest_first. lia. Qed.

Global Instance by_name_trans : Transitive Customer.by_name.
Proof. intros a b c. unfold Customer.by_name. apply transitivity. Qed.

Global Instance by_name_total : Total Customer.by_name.
Proof. intros a b. unfold Customer.by_name. apply total, _. Qed.

(** ** Statistics *)

Lemma aggregate_Sum_total_or_zero (sales : list Sale.t) :
  Customer.or_Decimal (Customer.aggregate_Sum_total sales) 0%Qc
  = foldr Qcplus 0%Qc (Sale.total <$> sales).
Proof.
  destruct sales as [|s sales]; [done|].
  unfold Customer.aggregate_Sum_total, Customer.or_Decimal.
  replace (foldr (λ s0 acc, Sale.total s0 + acc)%Qc 0%Qc (s :: sales))
    with (foldr Qcplus 0%Qc (Sale.total <$> s :: sales)).
  - case_decide as Hz; [by rewrite Hz|done].
  - generalize (s :: sales). intros l.
    induction l as [|x l IH]; [done|].
    rewrite fmap_cons. cbn [foldr]. by rewrite IH.
Qed.

Lemma update_stats_installed (sales : list Sale.t) (now : datetime)
    (c : Customer.t) (db : gmap Z Customer.t) :
  let matching := Customer.completed_sales sales c in
  let c' :=
    {| Customer.id := Customer.id c;
       Customer.name := Customer.name c;
       Customer.email := Customer.email c;
       Customer.phone := Customer.phone c;
       Customer.address := Customer.address c;
       Customer.tax_id := Customer.tax_id c;
       Customer.total_spent := foldr Qcplus 0%Qc (Sale.total <$> matching);
       Customer.visit_count := Z.of_nat (length matching);
       Customer.notes := Customer.notes c;
       Customer.is_active := Customer.is_active c;
       Customer.created_at :=
         if decide (map_Exists (λ _ row, Customer.id row = Customer.id c) db)
         then Customer.created_at c else now;
       Customer.updated_at := now;
       Customer.last_purchase_at :=
         match head (merge_sort Customer.newest_sale_first matching) with
         | Some sale => Some (Sale.created_at sale)
         | None => Customer.last_purchase_at c
         end |} in
  Customer.update_stats (Some sales) now c db
  = (Ok c', <[Customer.id c := c']> db).
Proof.
  cbv zeta. unfold Customer.update_stats, try_except.
  unfold mbind, DB_bind. cbn [Customer.import_Sale mret DB_ret].
  rewrite aggregate_Sum_total_or_zero. unfold Customer.save. cbv zeta.
  destruct (head (merge_sort Customer.newest_sale_first
                    (Customer.completed_sales sales c)));
    cbn [Customer.id Customer.set_updated_at Customer.set_last_purchase_at
         Customer.set_total_spent Customer.set_visit_count];
    case_decide; reflexivity.
Qed.

(** C3: with the sales application installed, [update_stats] counts the
    completed sales recorded under the customer's current name into
    [visit_count], sums their totals into [total_spent] (0.00 over no sale),
    sets [last_purchase_at] to the creation time of a latest such sale and
    keeps it when there is none, and saves the instance under its
    identifier.  No other field changes but the two timestamps [save]
    maintains: [updated_at] is refreshed; [created_at] is kept for a stored
    customer (and whenever a row with the customer's identifier exists) and
    is set along with [updated_at] when the instance is not in the table
    yet and [save] inserts it. *)
Theorem update_stats_recomputes (sales : list Sale.t) (now : datetime)
    (c : Customer.t) (db : gmap Z Customer.t) :
  let matching :=
    filter (λ s, Sale.customer_name s = Customer.name c
                 ∧ Sale.status s = "completed") sales in
  ∃ c',
    Customer.update_stats (Some sales) now c db
    = (Ok c', <[Customer.id c := c']> db)
    ∧ Customer.visit_count c' = Z.of_nat (length matching)
    ∧ Customer.total_spent c' = foldr Qcplus 0%Qc (Sale.total <$> matching)
    ∧ (matching = [] →
       Customer.total_spent c' = 0%Qc
       ∧ Customer.last_purchase_at c' = Customer.last_purchase_at c)
    ∧ (matching ≠ [] →
       ∃ latest, latest ∈ matching
         ∧ (∀ s, s ∈ matching → (Sale.created_at s ≤ Sale.created_at latest)%Z)
         ∧ Customer.last_purchase_at c' = Some (Sale.created_at latest))
    ∧ (Customer.id c' = Customer.id c
       ∧ Customer.name c' = Customer.name c
       ∧ Customer.email c' = Customer.email c
       ∧ Customer.phone c' = Customer.phone c
       ∧ Customer.address c' = Customer.address c
       ∧ Customer.tax_id c' = Customer.tax_id c
       ∧ Customer.notes c' = Customer.notes c
       ∧ Customer.is_active c' = Customer.is_active c
       ∧ Customer.updated_at c' = now)
    ∧ (stored db c → Customer.created_at c' = Customer.created_at c)
    ∧ ((∃ pk row, db !! pk = Some row ∧ Customer.id row = Customer.id c) →
       Customer.created_at c' = Customer.created_at c)
    ∧ ((∀ pk row, db !! pk = Some row → Customer.id row ≠ Customer.id c) →
       Customer.created_at c' = now).
Proof.
  cbv zeta.
  change (filter _ sales) with (Customer.completed_sales sales c).
  eexists. split; [apply update_stats_installed|]. simpl.
  pose proof (order_by_first Customer.newest_sale_first
                (Customer.completed_sales sales c)) as Hfirst.
  split; [done|]. split; [done|].
  match goal with |- _ ∧ _ ∧ _ ∧ ?G => assert G as Hcreated end.
  { case_decide as Hrow; (split; [|split]).
    - done.
    - done.
    - intros Hnone. destruct Hrow as (pk & row & Hpk & Hid).
      by destruct (Hnone pk row).
    - intros [pk Hpk]. destruct Hrow. by exists pk, c.
    - intros (pk & row & Hpk & Hid). destruct Hrow. by exists pk, row.
    - done. }
  destruct (head (merge_sort Customer.newest_sale_first
                    (Customer.completed_sales sales c))) as [latest|].
  - destruct Hfirst as [Hin Hmax]. split; [|split; [|done]].
    + intros Hnil. rewrite Hnil in Hin. by apply elem_of_nil in Hin.
    + intros _. exists latest. split; [done|]. split; [|done].
      intros s Hs. exact (Hmax s Hs).
  - split; [|split; [|done]].
    + intros _. by rewrite Hfirst.
    + intros Hne. by destruct Hne.
Qed.

(** Ann's statistics over [sample_sales]: two visits, 15.00 spent, last
    purchase at time 300.  Ann is stored, so her creation time 0 is
    kept. *)
Example update_stats_sample_sales :
  ∃ c' db',
    Customer.update_stats (Some sample_sales) 1000
      (sample_customer 1 "Ann" 0) ann_db = (Ok c', db')
    ∧ db' !! 1 = Some c'
    ∧ Customer.visit_count c' = 2
    ∧ Customer.total_spent c' = Qc_of_Z 15
    ∧ Customer.last_purchase_at c' = Some 300
    ∧ Customer.created_at c' = 0
    ∧ Customer.updated_at c' = 1000.
Proof.
  eexists _, _. split; [apply update_stats_installed|].
  split; [apply lookup_insert_eq|]. simpl.
  split; [reflexivity|]. split; [by apply Qc_is_canon|].
  repeat split.
Qed.

(** The same call on an instance that is not in the table: the instance is
    inserted, and its creation time 0 is replaced by the time of the
    call. *)
Example update_stats_inserts :
  ∃ c' db',
    Customer.update_stats (Some sample_sales) 1000
      (sample_customer 1 "Ann" 0) ∅ = (Ok c', db')
    ∧ db' !! 1 = Some c'
    ∧ Customer.visit_count c' = 2
    ∧ Customer.total_spent c' = Qc_of_Z 15
    ∧ Customer.last_purchase_at c' = Some 300
    ∧ Customer.created_at c' = 1000
    ∧ Customer.updated_at c' = 1000.
Proof.
  eexists _, _. split; [apply update_stats_installed|].
  split; [apply lookup_insert_eq|]. simpl.
  split; [reflexivity|]. split; [by apply Qc_is_canon|].
  repeat split.
Qed.

(** Without the sales application the update-stats handler reports the
    stored statistics and writes nothing. *)
Lemma customer_update_stats_without_sales (now : datetime)
    (request : HttpRequest) (pk : Z) (c : Customer.t) (db : gmap Z Customer.t) :
  method request = "POST" → db !! pk = Some c →
  ∃ average,
    Customer.average_purchase c = Ok average
    ∧ customer_update_stats None now request pk db
      = (Ok (JsonResponse
               [("success", JBool true);
                ("total_spent", JFloat (Customer.total_spent c));
                ("visit_count", JInt (Customer.visit_count c));
                ("average_purchase", JFloat average)]),
         db).
Proof.
  intros Hm Hpk. destruct (average_purchase_returns c) as [average Havg].
  exists average. split; [done|]. unfold customer_update_stats.
  rewrite require_http_methods_permitted by (rewrite Hm; set_solver).
  unfold try_except, mbind, DB_bind.
  rewrite (get_object_or_404_found _ _ _ Hpk).
  change (Customer.update_stats None now c db) with (Ok c, db).
  unfold lift. by rewrite Havg.
Qed.

(** ** The listing *)

Lemma objects_all_stored (db : gmap Z Customer.t) (c : Customer.t) :
  c ∈ (map_to_list db).*2 ↔ stored db c.
Proof.
  rewrite list_elem_of_fmap. split.
  - intros [[pk c'] [-> H]]. exists pk. by apply elem_of_map_to_list.
  - intros [pk H]. exists (pk, c). split; [done|].
    by apply elem_of_map_to_list.
Qed.

Lemma customer_data_returns (c : Customer.t) (db : gmap Z Customer.t) :
  customer_data c db = (Ok (listing_entry c), db).
Proof.
  unfold customer_data, listing_entry, mbind, DB_bind, lift.
  by destruct (average_purchase_returns c) as [x ->].
Qed.

Lemma mapM_customer_data (rows : list Customer.t) (db : gmap Z Customer.t) :
  mapM customer_data rows db = (Ok (listing_entry <$> rows), db).
Proof.
  induction rows as [|c rows IH]; [done|].
  cbn [mapM]. unfold mbind at 1, DB_bind at 1. rewrite customer_data_returns.
  unfold mbind at 1, DB_bind at 1. by rewrite IH.
Qed.

(** The response of the listing: the entries of the first hundred rows of
    the query set, in order; the table is only read. *)
Lemma customer_list_ajax_response (request : HttpRequest)
    (db : gmap Z Customer.t) :
  method request = "GET" →
  customer_list_ajax request db
  = (Ok (listing_of
           (take 100 (customer_list_ajax_queryset request (map_to_list db).*2))),
     db).
Proof.
  intros Hm. unfold customer_list_ajax.
  rewrite require_http_methods_permitted by (rewrite Hm; set_solver).
  unfold mbind at 1, DB_bind at 1. unfold Customer.objects_all.
  unfold mbind at 1, DB_bind at 1. by rewrite mapM_customer_data.
Qed.

Lemma icontains_any_spec (search : string) (c : Customer.t) :
  search ≠ "" →
  icontains (Customer.name c) search || icontains (Customer.phone c) search
  || icontains (Customer.email c) search || icontains (Customer.tax_id c) search
  ↔ spec_passes_search search c.
Proof.
  intros Hne. unfold spec_passes_search, spec_contains_ascii_ci.
  rewrite !orb_True, !Is_true_true, !icontains_spec. tauto.
Qed.

(** The query set holds exactly the rows that pass the status restriction
    and the search restriction on the trimmed search text. *)
Lemma customer_list_ajax_queryset_spec (request : HttpRequest)
    (customers : list Customer.t) (c : Customer.t) :
  c ∈ customer_list_ajax_queryset request customers
  ↔ c ∈ customers
    ∧ spec_passes_status (qd_get (GET request) "status" "active") c
    ∧ spec_passes_search (strip (qd_get (GET request) "search" "")) c.
Proof.
  unfold customer_list_ajax_queryset. cbv zeta.
  rewrite order_by_elem_of by apply _.
  set (status := qd_get (GET request) "status" "active").
  set (search := strip (qd_get (GET request) "search" "")).
  assert (∀ l : list Customer.t,
    c ∈ (if decide (search = "") then l
         else filter (λ c, icontains (Customer.name c) search
                           || icontains (Customer.phone c) search
                           || icontains (Customer.email c) search
                           || icontains (Customer.tax_id c) search) l)
    ↔ c ∈ l ∧ spec_passes_search search c) as Hsearch.
  { intros l. case_decide as Hs.
    - unfold spec_passes_search. tauto.
    - rewrite list_elem_of_filter, icontains_any_spec by done. tauto. }
  rewrite Hsearch. unfold spec_passes_status.
  repeat case_decide; rewrite ?list_elem_of_filter;
    destruct (Customer.is_active c); intuition congruence.
Qed.

(** The query set is a reordering of some of the rows. *)
Lemma customer_list_ajax_queryset_sublist (request : HttpRequest)
    (customers : list Customer.t) :
  ∃ kept, customer_list_ajax_queryset request customers ≡ₚ kept
          ∧ kept `sublist_of` customers.
Proof.
  unfold customer_list_ajax_queryset. cbv zeta.
  eexists. split; [apply merge_sort_Permutation|].
  repeat case_decide;
    repeat (etrans; [apply sublist_filter|]); reflexivity.
Qed.

Lemma StronglySorted_strict {A} (key : A → Z) (l : list A) :
  StronglySorted (λ a b, (key b ≤ key a)%Z) l →
  NoDup (key <$> l) →
  StronglySorted (λ a b, (key b < key a)%Z) l.
Proof.
  induction 1 as [|x l Hs IH Hall]; intros Hnd; [constructor|].
  rewrite fmap_cons in Hnd. apply NoDup_cons in Hnd as [Hx Hnd].
  constructor; [by apply IH|].
  apply Forall_forall. intros y Hy.
  eapply Forall_forall in Hall; [|exact Hy].
  assert (key y ≠ key x); [|lia].
  intros Heq. apply Hx. rewrite <- Heq. by apply list_elem_of_fmap_2.
Qed.

(** When no two rows share a creation time, the creation times of the rows
    are pairwise distinct. *)
Lemma created_at_NoDup (db : gmap Z Customer.t) :
  (∀ pk1 pk2 a b, db !! pk1 = Some a → db !! pk2 = Some b →
     Customer.created_at a = Customer.created_at b → pk1 = pk2) →
  NoDup (Customer.created_at <$> (map_to_list db).*2).
Proof.
  intros Hdistinct. rewrite <- list_fmap_compose.
  apply NoDup_fmap_2_strong; [|apply NoDup_map_to_list].
  intros [pk1 a] [pk2 b] Ha%elem_of_map_to_list Hb%elem_of_map_to_list Heq.
  simpl in Heq. pose proof (Hdistinct _ _ _ _ Ha Hb Heq) as ->.
  rewrite Ha in Hb. by injection Hb as ->.
Qed.

(** C6: the listing returns its rows newest first and at most 100 of them.
    The rows returned are the head of the complete ordered result: what is
    cut off ([rest]) comes after every returned row, and something is cut
    off only when 100 rows are returned.  When no two customers share a
    creation time the order is strictly descending. *)
Theorem listing_order (request : HttpRequest) (db : gmap Z Customer.t) :
  method request = "GET" →
  ∃ rows rest,
    customer_list_ajax request db = (Ok (listing_of rows), db)
    ∧ (length rows ≤ 100)%nat
    ∧ StronglySorted
        (λ a b, (Customer.created_at b ≤ Customer.created_at a)%Z)
        (rows ++ rest)
    ∧ (rest ≠ [] → length rows = 100%nat)
    ∧ (∀ c, c ∈ rows ++ rest
            ↔ stored db c
              ∧ spec_passes_status (qd_get (GET request) "status" "active") c
              ∧ spec_passes_search
                  (strip (qd_get (GET request) "search" "")) c)
    ∧ ((∀ pk1 pk2 a b, db !! pk1 = Some a → db !! pk2 = Some b →
          Customer.created_at a = Customer.created_at b → pk1 = pk2) →
       StronglySorted
         (λ a b, (Customer.created_at b < Customer.created_at a)%Z)
         (rows ++ rest)).
Proof.
  intros Hm.
  set (ordered := customer_list_ajax_queryset request (map_to_list db).*2).
  exists (take 100 ordered), (drop 100 ordered).
  split; [by apply customer_list_ajax_response|].
  split; [rewrite length_take; lia|].
  rewrite take_drop.
  assert (StronglySorted
            (λ a b, (Customer.created_at b ≤ Customer.created_at a)%Z) ordered)
    as Hsorted by apply (StronglySorted_merge_sort Customer.newest_first).
  split; [done|]. split; [|split].
  - intros Hrest. rewrite length_take. apply Nat.min_l.
    destruct (decide (100 ≤ length ordered)%nat) as [|Hshort]; [done|].
    destruct Hrest. apply drop_ge. lia.
  - intros c. unfold ordered.
    by rewrite customer_list_ajax_queryset_spec, objects_all_stored.
  - intros Hdistinct. apply StronglySorted_strict; [done|].
    destruct (customer_list_ajax_queryset_sublist request (map_to_list db).*2)
      as [kept [Hperm Hsub]].
    fold ordered in Hperm. rewrite Hperm.
    eapply sublist_NoDup; [by apply created_at_NoDup|].
    by apply fmap_sublist.
Qed.

Lemma listing_order_witness :
  let request := GET_request [("status", "all")] in
  method request = "GET"
  ∧ ∃ rows rest,
      customer_list_ajax request (crowd 3) = (Ok (listing_of rows), crowd 3)
      ∧ (length rows ≤ 100)%nat
      ∧ StronglySorted
          (λ a b, (Customer.created_at b ≤ Customer.created_at a)%Z)
          (rows ++ rest)
      ∧ (rest ≠ [] → length rows = 100%nat)
      ∧ (∀ c, c ∈ rows ++ rest
              ↔ stored (crowd 3) c
                ∧ spec_passes_status (qd_get (GET request) "status" "active") c
                ∧ spec_passes_search
                    (strip (qd_get (GET request) "search" "")) c)
      ∧ ((∀ pk1 pk2 a b, crowd 3 !! pk1 = Some a → crowd 3 !! pk2 = Some b →
            Customer.created_at a = Customer.created_at b → pk1 = pk2) →
         StronglySorted
           (λ a b, (Customer.created_at b < Customer.created_at a)%Z)
           (rows ++ rest)).
Proof.
  cbv zeta. split; [reflexivity|].
  apply (listing_order (GET_request [("status", "all")]) (crowd 3)).
  reflexivity.
Defined.

(** Customers created in the order 1, 2, 3 are listed as 3, 2, 1. *)
Example listing_order_three :
  (customer_list_ajax (GET_request []) (crowd 3)).1
  = Ok (listing_of [sample_customer 3 "Customer" 3;
                    sample_customer 2 "Customer" 2;
                    sample_customer 1 "Customer" 1]).
Proof. reflexivity. Qed.

(** C5 (as amended): every listed customer is stored and passes the status
    restriction and, for a non-empty trimmed search text, the search
    restriction: the text occurs in the name, the phone, the email or the
    tax identifier when the letters A to Z are compared without regard to
    case and every other character exactly.  A stored customer that passes
    both is listed unless the listing is full, that is unless 100 passing
    customers at least as new are listed instead. *)
Theorem listing_filter (request : HttpRequest) (db : gmap Z Customer.t) :
  method request = "GET" →
  let status := qd_get (GET request) "status" "active" in
  let search := strip (qd_get (GET request) "search" "") in
  ∃ rows,
    customer_list_ajax request db = (Ok (listing_of rows), db)
    ∧ (∀ c, c ∈ rows →
         stored db c ∧ spec_passes_status status c ∧ spec_passes_search search c)
    ∧ (∀ c, stored db c → spec_passes_status status c →
         spec_passes_search search c →
         c ∈ rows
         ∨ (length rows = 100%nat
            ∧ ∀ r, r ∈ rows → Customer.created_at c ≤ Customer.created_at r)).
Proof.
  intros Hm. cbv zeta.
  set (ordered := customer_list_ajax_queryset request (map_to_list db).*2).
  exists (take 100 ordered).
  split; [by apply customer_list_ajax_response|]. split.
  - intros c Hc. apply (subseteq_take 100 ordered) in Hc.
    unfold ordered in Hc.
    by rewrite customer_list_ajax_queryset_spec, objects_all_stored in Hc.
  - intros c Hstored Hstatus Hsearch.
    assert (c ∈ ordered) as Hc.
    { unfold ordered.
      by rewrite customer_list_ajax_queryset_spec, objects_all_stored. }
    rewrite <- (take_drop 100 ordered) in Hc.
    apply elem_of_app in Hc as [Hc|Hc]; [by left|right]. split.
    + rewrite length_take. apply Nat.min_l.
      destruct (decide (100 ≤ length ordered)%nat) as [|Hshort]; [done|].
      rewrite drop_ge in Hc by lia. by apply elem_of_nil in Hc.
    + intros r Hr.
      exact (order_by_take Customer.newest_first 100 _ r c Hr Hc).
Qed.

Lemma listing_filter_witness :
  let request := GET_request [("search", " test "); ("status", "all")] in
  method request = "GET"
  ∧ ∃ rows,
      customer_list_ajax request search_db = (Ok (listing_of rows), search_db)
      ∧ (∀ c, c ∈ rows →
           stored search_db c
           ∧ spec_passes_status (qd_get (GET request) "status" "active") c
           ∧ spec_passes_search (strip (qd_get (GET request) "search" "")) c)
      ∧ (∀ c, stored search_db c →
           spec_passes_status (qd_get (GET request) "status" "active") c →
           spec_passes_search (strip (qd_get (GET request) "search" "")) c →
           c ∈ rows
           ∨ (length rows = 100%nat
              ∧ ∀ r, r ∈ rows → Customer.created_at c ≤ Customer.created_at r)).
Proof.
  cbv zeta. split; [reflexivity|].
  apply (listing_filter
           (GET_request [("search", " test "); ("status", "all")]) search_db).
  reflexivity.
Defined.

(** The search of the witness above finds Bob by his email and Ann by her
    name, whatever their status, and leaves out Carl and JOSÉ: the search
    text is trimmed and the case of its letters is ignored. *)
Example listing_search_fields :
  (customer_list_ajax
     (GET_request [("search", " test "); ("status", "all")]) search_db).1
  = Ok (listing_of
          [Customer.set_is_active false
             (Customer.set_email "bob@TESTING.example"
                (sample_customer 2 "Bob" 20));
           Customer.set_phone "600 111 222" (sample_customer 1 "Ann Test" 10)]).
Proof. reflexivity. Qed.

(** The same search among active customers only, and a search by phone
    number. *)
Example listing_search_active :
  (customer_list_ajax (GET_request [("search", "TEST")]) search_db).1
  = Ok (listing_of
          [Customer.set_phone "600 111 222" (sample_customer 1 "Ann Test" 10)])
  ∧ (customer_list_ajax (GET_request [("search", "111")]) search_db).1
    = Ok (listing_of
            [Customer.set_phone "600 111 222"
               (sample_customer 1 "Ann Test" 10)]).
Proof. split; reflexivity. Qed.

(** Only the letters A to Z are folded: a search for [jos] finds JOSÉ, a
    search for [josé] or [JOSé] does not, a search for [JOSÉ] does. *)
Example listing_folds_ascii_only :
  let jose := sample_customer 4 ("JOS" +:+ E_acute) 40 in
  (customer_list_ajax (GET_request [("search", "jos")]) search_db).1
  = Ok (listing_of [jose])
  ∧ (customer_list_ajax
       (GET_request [("search", "jos" +:+ e_acute)]) search_db).1
    = Ok (listing_of [])
  ∧ (customer_list_ajax
       (GET_request [("search", "JOS" +:+ e_acute)]) search_db).1
    = Ok (listing_of [])
  ∧ (customer_list_ajax
       (GET_request [("search", "jos" +:+ E_acute)]) search_db).1
    = Ok (listing_of [jose]).
Proof. repeat split; reflexivity. Qed.

(** The fixture customer is found by a search for [test]. *)
Example listing_search_trimmed :
  (customer_list_ajax
     (GET_request [("search", " test "); ("status", "all")]) sample_db).1
  = Ok (listing_of [sample_customer 1 "Test Customer" 0]).
Proof. reflexivity. Qed.

(** The three status filters on one active and one inactive customer list
    one, one and two customers. *)
Example listing_status_active :
  (customer_list_ajax (GET_request [("status", "active")]) pair_db).1
  = Ok (listing_of [sample_customer 1 "Test Customer" 0]).
Proof. reflexivity. Qed.

Example listing_status_inactive :
  (customer_list_ajax (GET_request [("status", "inactive")]) pair_db).1
  = Ok (listing_of
          [Customer.set_is_active false (sample_customer 2 "Inactive" 5)]).
Proof. reflexivity. Qed.

Example listing_status_all :
  (customer_list_ajax (GET_request [("status", "all")]) pair_db).1
  = Ok (listing_of
          [Customer.set_is_active false (sample_customer 2 "Inactive" 5);
           sample_customer 1 "Test Customer" 0]).
Proof. reflexivity. Qed.

(** C5 (as stated) fails on a table of 101 active customers: the default
    listing returns 100 rows, and the oldest customer, who is stored, active
    and not excluded by any search, is not among them. *)
Lemma listing_omits_matching_customer :
  let request := GET_request [] in
  let c := sample_customer 1 "Customer" 1 in
  ∃ rows,
    customer_list_ajax request (crowd 101) = (Ok (listing_of rows), crowd 101)
    ∧ stored (crowd 101) c
    ∧ spec_passes_status (qd_get (GET request) "status" "active") c
    ∧ spec_passes_search (qd_get (GET request) "search" "") c
    ∧ length rows = 100%nat
    ∧ (c ∉ rows)
    ∧ (Customer.id c ∉ Customer.id <$> rows).
Proof.
  cbv zeta. eexists.
  split; [by apply customer_list_ajax_response|].
  split; [exists 1; by vm_compute|].
  split; [split; [reflexivity|discriminate]|].
  split; [by left|].
  split; [by vm_compute|].
  assert (Customer.id (sample_customer 1 "Customer" 1)
          ∉ (Customer.id <$>
               take 100 (customer_list_ajax_queryset (GET_request [])
                           (map_to_list (crowd 101)).*2))) as Hid.
  { apply (bool_decide_unpack _). by vm_compute. }
  split; [|done].
  intros Hc. apply Hid. by apply list_elem_of_fmap_2.
Qed.

(** ** The export *)

Lemma customers_export_response (now : datetime) (request : HttpRequest)
    (db : gmap Z Customer.t) :
  method request = "GET" →
  customers_export now request db
  = (Ok (CsvAttachment now
           ((CellStr <$> export_header)
            :: (export_row <$> customers_export_queryset (map_to_list db).*2))),
     db).
Proof.
  intros Hm. unfold customers_export.
  by rewrite require_http_methods_permitted by (rewrite Hm; set_solver).
Qed.

(** The header line as [csv.writer] writes it. *)
Lemma export_header_line :
  csv_line export_header
  = "Name,Email,Phone,Tax ID,Total Spent,Visit Count,Created At"
    +:+ String "013" (String "010" "").
Proof. reflexivity. Qed.

(** C8: the export writes the header row first, then one row for each
    stored customer with [is_active = true] and for no other, in ascending
    order of name. *)
Theorem export_active_by_name (now : datetime) (request : HttpRequest)
    (db : gmap Z Customer.t) :
  method request = "GET" →
  ∃ customers,
    customers_export now request db
    = (Ok (CsvAttachment now
             ((CellStr <$> ["Name"; "Email"; "Phone"; "Tax ID"; "Total Spent";
                            "Visit Count"; "Created At"])
              :: (export_row <$> customers))),
       db)
    ∧ csv_line export_header
      = "Name,Email,Phone,Tax ID,Total Spent,Visit Count,Created At"
        +:+ String "013" (String "010" "")
    ∧ customers
      ≡ₚ filter (λ c, Customer.is_active c = true) (map_to_list db).*2
    ∧ (∀ c, c ∈ customers ↔ stored db c ∧ Customer.is_active c = true)
    ∧ StronglySorted
        (λ a b, String.le (Customer.name a) (Customer.name b)) customers.
Proof.
  intros Hm. exists (customers_export_queryset (map_to_list db).*2).
  split; [by apply customers_export_response|].
  split; [exact export_header_line|].
  unfold customers_export_queryset.
  split; [apply merge_sort_Permutation|]. split.
  - intros c. rewrite order_by_elem_of by apply _.
    rewrite list_elem_of_filter, objects_all_stored. tauto.
  - apply (StronglySorted_merge_sort Customer.by_name).
Qed.

Lemma export_active_by_name_witness :
  let request := GET_request [] in
  method request = "GET"
  ∧ ∃ customers,
      customers_export 40 request mixed_db
      = (Ok (CsvAttachment 40
               ((CellStr <$> ["Name"; "Email"; "Phone"; "Tax ID"; "Total Spent";
                              "Visit Count"; "Created At"])
                :: (export_row <$> customers))),
         mixed_db)
      ∧ csv_line export_header
        = "Name,Email,Phone,Tax ID,Total Spent,Visit Count,Created At"
          +:+ String "013" (String "010" "")
      ∧ customers
        ≡ₚ filter (λ c, Customer.is_active c = true) (map_to_list mixed_db).*2
      ∧ (∀ c, c ∈ customers ↔ stored mixed_db c ∧ Customer.is_active c = true)
      ∧ StronglySorted
          (λ a b, String.le (Customer.name a) (Customer.name b)) customers.
Proof.
  cbv zeta. split; [reflexivity|].
  apply (export_active_by_name 40 (GET_request []) mixed_db). reflexivity.
Defined.

(** The export of the mixed table: the inactive customer is left out and
    the names ascend. *)
Example export_mixed_db :
  (customers_export 40 (GET_request []) mixed_db).1
  = Ok (CsvAttachment 40
          [CellStr <$> export_header;
           export_row (sample_customer 3 "Alice" 30);
           export_row (sample_customer 1 "bob" 10)]).
Proof. reflexivity. Qed.

(** ** Creation *)

Lemma next_pk_above (db : gmap Z Customer.t) (pk : Z) (c : Customer.t) :
  db !! pk = Some c → pk < Customer.next_pk db.
Proof.
  unfold Customer.next_pk. revert pk c.
  apply (map_fold_weak_ind
           (λ acc (m : gmap Z Customer.t), ∀ pk c, m !! pk = Some c → pk < 1 + acc)).
  - intros pk c H. by rewrite lookup_empty in H.
  - intros i x m acc Hi IH pk c H.
    destruct (decide (i = pk)) as [->|Hne]; [lia|].
    rewrite lookup_insert_ne in H by done. specialize (IH pk c H). lia.
Qed.

(** The key given to a new customer is not in use. *)
Lemma next_pk_fresh (db : gmap Z Customer.t) : db !! Customer.next_pk db = None.
Proof.
  destruct (db !! Customer.next_pk db) as [c|] eqn:H; [|done].
  apply next_pk_above in H. lia.
Qed.

(** A create POST with a name adds one row under a fresh key, with the
    trimmed form values, no purchases yet and [is_active = true]; the rows
    already stored are untouched. *)
Lemma customer_create_valid (now : datetime) (request : HttpRequest)
    (db : gmap Z Customer.t) :
  method request = "POST" →
  strip (qd_get (POST request) "name" "") ≠ "" →
  let pk := Customer.next_pk db in
  let row :=
    {| Customer.id := pk;
       Customer.name := strip (qd_get (POST request) "name" "");
       Customer.email := strip (qd_get (POST request) "email" "");
       Customer.phone := strip (qd_get (POST request) "phone" "");
       Customer.address := strip (qd_get (POST request) "address" "");
       Customer.tax_id := strip (qd_get (POST request) "tax_id" "");
       Customer.total_spent := 0%Qc;
       Customer.visit_count := 0;
       Customer.notes := strip (qd_get (POST request) "notes" "");
       Customer.is_active := true;
       Customer.created_at := now;
       Customer.updated_at := now;
       Customer.last_purchase_at := None |} in
  db !! pk = None
  ∧ customer_create now request db
    = (Ok (JsonResponse
             [("success", JBool true);
              ("message", JStr "Cliente creado correctamente");
              ("customer_id", JInt pk)]),
       <[pk := row]> db).
Proof.
  intros Hm Hname. cbv zeta. split; [apply next_pk_fresh|].
  unfold customer_create.
  rewrite require_http_methods_permitted by (rewrite Hm; set_solver).
  rewrite decide_True by done. unfold try_except.
  cbv zeta. rewrite decide_False by done. reflexivity.
Qed.

(** ** The invariant is kept by every handler *)

Create HintDb keyed discriminated.

Lemma preserves_mret {A} (a : A) : preserves_keyed (mret a).
Proof. by intros db Hk. Qed.

Lemma preserves_lift {A} (r : result A) : preserves_keyed (lift r).
Proof. by intros db Hk. Qed.

Lemma preserves_bind {A B} (m : DB Customer.t A) (k : A → DB Customer.t B) :
  preserves_keyed m → (∀ a, preserves_keyed (k a)) → preserves_keyed (m ≫= k).
Proof.
  intros Hm Hkk db Hk. unfold mbind, DB_bind. specialize (Hm db Hk).
  destruct (m db) as [[a|e] db']; [by apply Hkk|done].
Qed.

Lemma preserves_try_except {A} (body : DB Customer.t A) (cls : exn_class)
    (handler : exn → DB Customer.t A) :
  preserves_keyed body → (∀ e, preserves_keyed (handler e)) →
  preserves_keyed (try_except body cls handler).
Proof.
  intros Hb Hh db Hk. unfold try_except. specialize (Hb db Hk).
  destruct (body db) as [[a|e] db']; [done|].
  destruct (isinstance e cls); [by apply Hh|done].
Qed.

Lemma preserves_save (now : datetime) (c : Customer.t) :
  preserves_keyed (Customer.save now c).
Proof.
  intros db Hk. destruct (save_table now c db) as (c' & -> & Hid).
  cbn [snd]. rewrite <- Hid. by apply keyed_insert.
Qed.

Lemma preserves_objects_create (now : datetime)
    (name email phone address tax_id notes : string) :
  preserves_keyed
    (Customer.objects_create now name email phone address tax_id notes).
Proof. intros db Hk. by apply map_Forall_insert_2. Qed.

Lemma preserves_objects_all : preserves_keyed Customer.objects_all.
Proof. by intros db Hk. Qed.

Lemma preserves_get_object_or_404 (pk : Z) :
  preserves_keyed (get_object_or_404 pk).
Proof. intros db Hk. unfold get_object_or_404. by destruct (db !! pk). Qed.

Lemma preserves_import_Sale (sales_app : option (list Sale.t)) :
  preserves_keyed (Customer.import_Sale sales_app).
Proof. intros db Hk. by destruct sales_app. Qed.

Lemma preserves_require_http_methods (permitted : list string)
    (request : HttpRequest) (view : DB Customer.t HttpResponse) :
  preserves_keyed view →
  preserves_keyed (require_http_methods permitted request view).
Proof.
  intros Hv. unfold require_http_methods.
  case_decide; [done|apply preserves_mret].
Qed.

Lemma preserves_mapM {A B} (f : A → DB Customer.t B) (l : list A) :
  (∀ a, preserves_keyed (f a)) → preserves_keyed (mapM f l).
Proof.
  intros Hf. induction l as [|a l IH]; [by intros db Hk|].
  cbn [mapM]. apply preserves_bind; [done|]. intros b.
  apply preserves_bind; [done|]. intros bs. apply preserves_mret.
Qed.

Lemma preserves_if {A} (b : bool) (m1 m2 : DB Customer.t A) :
  preserves_keyed m1 → preserves_keyed m2 →
  preserves_keyed (if b then m1 else m2).
Proof. by destruct b. Qed.

Lemma preserves_if_decide {A} (P : Prop) `{!Decision P}
    (m1 m2 : DB Customer.t A) :
  preserves_keyed m1 → preserves_keyed m2 →
  preserves_keyed (if decide P then m1 else m2).
Proof. by case_decide. Qed.

#[local] Hint Resolve preserves_mret preserves_lift preserves_bind
  preserves_try_except
  preserves_save preserves_objects_create preserves_objects_all
  preserves_get_object_or_404 preserves_import_Sale
  preserves_require_http_methods preserves_mapM preserves_if
  preserves_if_decide : keyed.

Lemma preserves_update_stats (sales_app : option (list Sale.t))
    (now : datetime) (c : Customer.t) :
  preserves_keyed (Customer.update_stats sales_app now c).
Proof. unfold Customer.update_stats. auto 10 with keyed. Qed.

Lemma preserves_get_recent_purchases (sales_app : option (list Sale.t))
    (c : Customer.t) (limit : nat) :
  preserves_keyed (Customer.get_recent_purchases sales_app c limit).
Proof. unfold Customer.get_recent_purchases. auto 10 with keyed. Qed.

#[local] Hint Resolve preserves_update_stats preserves_get_recent_purchases
  : keyed.

(** Every handler takes a table whose rows sit under their own keys to such
    a table; so does every sequence of requests started on the empty
    table. *)
Lemma handlers_preserve_keyed (sales_app : option (list Sale.t))
    (now : datetime) (request : HttpRequest) (pk : Z) :
  preserves_keyed (customer_list request)
  ∧ preserves_keyed (customer_list_ajax request)
  ∧ preserves_keyed (customer_create now request)
  ∧ preserves_keyed (customer_detail sales_app request pk)
  ∧ preserves_keyed (customer_edit now request pk)
  ∧ preserves_keyed (customer_delete now request pk)
  ∧ preserves_keyed (customer_update_stats sales_app now request pk)
  ∧ preserves_keyed (customers_export now request).
Proof.
  unfold customer_list, customer_list_ajax, customer_create, customer_detail,
    customer_edit, customer_delete, customer_update_stats, customers_export,
    customer_data.
  repeat split; auto 12 with keyed.
Qed.

(** * Further properties of the handlers *)

(** ** Handlers that only read *)

Create HintDb read_only discriminated.

Lemma read_only_mret {A} (a : A) : read_only (mret a).
Proof. by intros db. Qed.

Lemma read_only_lift {A} (r : result A) : read_only (lift r).
Proof. by intros db. Qed.

Lemma read_only_bind {A B} (m : DB Customer.t A) (k : A → DB Customer.t B) :
  read_only m → (∀ a, read_only (k a)) → read_only (m ≫= k).
Proof.
  intros Hm Hk db. unfold mbind, DB_bind. specialize (Hm db).
  destruct (m db) as [[a|e] db']; simpl in Hm; subst db'; [apply Hk|done].
Qed.

Lemma read_only_try_except {A} (body : DB Customer.t A) (cls : exn_class)
    (handler : exn → DB Customer.t A) :
  read_only body → (∀ e, read_only (handler e)) →
  read_only (try_except body cls handler).
Proof.
  intros Hb Hh db. unfold try_except. specialize (Hb db).
  destruct (body db) as [[a|e] db']; simpl in Hb; subst db'; [done|].
  destruct (isinstance e cls); [apply Hh|done].
Qed.

Lemma read_only_objects_all : read_only Customer.objects_all.
Proof. by intros db. Qed.

Lemma read_only_get_object_or_404 (pk : Z) : read_only (get_object_or_404 pk).
Proof. intros db. unfold get_object_or_404. by destruct (db !! pk). Qed.

Lemma read_only_import_Sale (sales_app : option (list Sale.t)) :
  read_only (Customer.import_Sale sales_app).
Proof. intros db. by destruct sales_app. Qed.

Lemma read_only_require_http_methods (permitted : list string)
    (request : HttpRequest) (view : DB Customer.t HttpResponse) :
  read_only view → read_only (require_http_methods permitted request view).
Proof.
  intros Hv. unfold require_http_methods.
  case_decide; [done|apply read_only_mret].
Qed.

Lemma read_only_mapM {A B} (f : A → DB Customer.t B) (l : list A) :
  (∀ a, read_only (f a)) → read_only (mapM f l).
Proof.
  intros Hf. induction l as [|a l IH]; [by intros db|].
  cbn [mapM]. apply read_only_bind; [done|]. intros b.
  apply read_only_bind; [done|]. intros bs. apply read_only_mret.
Qed.

Lemma read_only_if {A} (b : bool) (m1 m2 : DB Customer.t A) :
  read_only m1 → read_only m2 → read_only (if b then m1 else m2).
Proof. by destruct b. Qed.

#[local] Hint Resolve read_only_mret read_only_lift read_only_bind
  read_only_try_except read_only_objects_all read_only_get_object_or_404
  read_only_import_Sale read_only_require_http_methods read_only_mapM
  read_only_if : read_only.

Lemma read_only_get_recent_purchases (sales_app : option (list Sale.t))
    (c : Customer.t) (limit : nat) :
  read_only (Customer.get_recent_purchases sales_app c limit).
Proof. unfold Customer.get_recent_purchases. auto 10 with read_only. Qed.

#[local] Hint Resolve read_only_get_recent_purchases : read_only.

Lemma pages_read_only (sales_app : option (list Sale.t)) (now : datetime)
    (request : HttpRequest) (pk : Z) :
  read_only (customer_list request)
  ∧ read_only (customer_list_ajax request)
  ∧ read_only (customer_detail sales_app request pk)
  ∧ read_only (customers_export now request).
Proof.
  unfold customer_list, customer_list_ajax, customer_detail,
    customers_export, customer_data.
  repeat split; auto 12 with read_only.
Qed.

(** X1: the list page, the listing API, the detail page and the export
    never write to the table, whatever the request (any method, any
    identifier, sales application installed or not). *)
Theorem pages_never_write (sales_app : option (list Sale.t)) (now : datetime)
    (request : HttpRequest) (pk : Z) (db : gmap Z Customer.t) :
  (customer_list request db).2 = db
  ∧ (customer_list_ajax request db).2 = db
  ∧ (customer_detail sales_app request pk db).2 = db
  ∧ (customers_export now request db).2 = db.
Proof.
  destruct (pages_read_only sales_app now request pk) as (H1 & H2 & H3 & H4).
  auto.
Qed.

Lemma read_only_unless_POST (sales_app : option (list Sale.t))
    (now : datetime) (request : HttpRequest) (pk : Z) :
  method request ≠ "POST" →
  read_only (customer_create now request)
  ∧ read_only (customer_edit now request pk)
  ∧ read_only (customer_delete now request pk)
  ∧ read_only (customer_update_stats sales_app now request pk).
Proof.
  intros Hm.
  unfold customer_create, customer_edit, customer_delete,
    customer_update_stats, require_http_methods.
  repeat split.
  - case_decide; [|apply read_only_mret].
    rewrite decide_False by done. auto with read_only.
  - case_decide; [|apply read_only_mret].
    apply read_only_bind; [apply read_only_get_object_or_404|]. intros c.
    rewrite decide_False by done. auto with read_only.
  - rewrite decide_False; [apply read_only_mret|].
    by intros H%list_elem_of_singleton.
  - rewrite decide_False; [apply read_only_mret|].
    by intros H%list_elem_of_singleton.
Qed.

(** X2: the four handlers that can write do so only for a POST: for any
    other method (a GET of the create or edit form, or a method that is
    refused) the table is left as it was. *)
Theorem writes_only_on_POST (sales_app : option (list Sale.t)) (now : datetime)
    (request : HttpRequest) (pk : Z) (db : gmap Z Customer.t) :
  method request ≠ "POST" →
  (customer_create now request db).2 = db
  ∧ (customer_edit now request pk db).2 = db
  ∧ (customer_delete now request pk db).2 = db
  ∧ (customer_update_stats sales_app now request pk db).2 = db.
Proof.
  intros Hm.
  destruct (read_only_unless_POST sales_app now request pk Hm)
    as (H1 & H2 & H3 & H4).
  auto.
Qed.

Lemma writes_only_on_POST_witness :
  let request := GET_request [] in
  method request ≠ "POST"
  ∧ (customer_create 5 request sample_db).2 = sample_db
  ∧ (customer_edit 5 request 1 sample_db).2 = sample_db
  ∧ (customer_delete 5 request 1 sample_db).2 = sample_db
  ∧ (customer_update_stats (Some sample_sales) 5 request 1 sample_db).2
    = sample_db.
Proof.
  cbv zeta. split; [discriminate|].
  apply (writes_only_on_POST (Some sample_sales) 5 (GET_request []) 1
           sample_db).
  discriminate.
Defined.

(** ** URL resolution *)

Lemma removeprefix_spec (prefix s rest : string) :
  removeprefix prefix s = Some rest ↔ s = prefix +:+ rest.
Proof.
  revert s. induction prefix as [|a prefix IH]; intros s; simpl.
  - rewrite append_nil_l. split; [by intros [= ->]|by intros ->].
  - destruct s as [|b s]; [by rewrite append_cons|].
    rewrite append_cons. destruct (Ascii.eqb a b) eqn:Hab.
    + apply Ascii.eqb_eq in Hab as ->. rewrite IH.
      split; [by intros ->|by intros [= ->]].
    + apply Ascii.eqb_neq in Hab. split; [done|]. intros [= -> _]. done.
Qed.

Lemma append_nil_r (s : string) : s +:+ "" = s.
Proof. induction s as [|c s IH]; [done|]. by rewrite append_cons, IH. Qed.

Lemma append_cancel_nil (s rest : string) : s +:+ rest = s → rest = "".
Proof.
  induction s as [|c s IH]; [done|].
  rewrite append_cons. intros [= H]. auto.
Qed.

Lemma match_route_Lit (text s : string) (kwargs : list (string * Z)) :
  match_route [Lit text] s = Some kwargs ↔ s = text ∧ kwargs = [].
Proof.
  simpl. split.
  - destruct (removeprefix text s) as [rest|] eqn:Hrest; [|done].
    apply removeprefix_spec in Hrest as ->.
    case_decide as Hnil; [|done]. subst rest. intros [= <-].
    by rewrite append_nil_r.
  - intros [-> ->].
    assert (removeprefix text text = Some "") as ->.
    { apply removeprefix_spec. by rewrite append_nil_r. }
    by rewrite decide_True.
Qed.

Lemma int_of_digits_nonneg (acc : Z) (digits : string) :
  0 ≤ acc → all_digits digits = true → 0 ≤ int_of_digits acc digits.
Proof.
  revert acc. induction digits as [|c digits IH]; intros acc Hacc; simpl;
    [done|].
  intros [Hc Hds]%andb_prop. apply IH; [|done].
  unfold is_digit in Hc. unfold digit_value.
  apply andb_prop in Hc as [Hlo%N.leb_le _]. lia.
Qed.

Lemma append_snoc (s : string) (c : ascii) (t : string) :
  (s +:+ String c "") +:+ t = s +:+ String c t.
Proof. induction s as [|a s IH]; [done|]. by rewrite !append_cons, IH. Qed.

(** [int] converts a run of at most 4300 digits and refuses a longer
    one. *)
Lemma to_python_Some (value : string) (n : Z) :
  to_python value = Some n
  ↔ (String.length value ≤ int_max_str_digits)%nat
    ∧ n = int_of_digits 0 value.
Proof.
  unfold to_python. case_decide as Hlen.
  - split; [by intros [= <-]|by intros [_ ->]].
  - split; [done|]. by intros [? _].
Qed.

(** What a match of the [int] converter consists of: a run of digits,
    non-empty unless digits were taken before, followed by a match of the
    rest of the route; the digits taken, old and new, are converted. *)
Lemma match_int_sound (rest : string → option (list (string * Z)))
    (name : string) (taken : option string) (s : string)
    (kwargs : list (string * Z)) :
  match_int rest name taken s = Some kwargs →
  ∃ digits tail kwargs' n,
    s = digits +:+ tail ∧ all_digits digits = true
    ∧ (taken = None → digits ≠ "")
    ∧ rest tail = Some kwargs'
    ∧ to_python (default "" taken +:+ digits) = Some n
    ∧ kwargs = (name, n) :: kwargs'.
Proof.
  revert taken.
  assert (∀ taken t,
            match taken with
            | Some value =>
                match rest t, to_python value with
                | Some kwargs, Some n => Some ((name, n) :: kwargs)
                | _, _ => None
                end
            | None => None
            end = Some kwargs →
          ∃ kwargs' n, taken ≠ None ∧ rest t = Some kwargs'
            ∧ to_python (default "" taken +:+ "") = Some n
            ∧ kwargs = (name, n) :: kwargs') as Hstop.
  { intros [v|] t; [|done]. cbn [from_option id]. rewrite append_nil_r.
    destruct (rest t) as [kw|]; [|done].
    destruct (to_python v) as [n|]; [|done].
    intros [= <-]. by exists kw, n. }
  induction s as [|c s IH]; intros taken; simpl.
  - intros (kw & n & Hacc & Hrest & Hn & ->)%Hstop. by exists "", "", kw, n.
  - destruct (is_digit c) eqn:Hc.
    + destruct (match_int rest name _ s) as [kw|] eqn:Hrec.
      * intros [= ->]. apply IH in Hrec
          as (digits & tail & kw' & n & -> & Hds & _ & Hrest & Hn & ->).
        cbn [from_option id] in Hn. rewrite append_snoc in Hn.
        exists (String c digits), tail, kw', n. rewrite append_cons. simpl.
        by rewrite Hc, Hds.
      * intros (kw & n & Hacc & Hrest & Hn & ->)%Hstop.
        by exists "", (String c s), kw, n.
    + intros (kw & n & Hacc & Hrest & Hn & ->)%Hstop.
      by exists "", (String c s), kw, n.
Qed.

(** When the rest of the route cannot start with a digit, the converter
    takes the whole run of digits. *)
Lemma match_int_complete (rest : string → option (list (string * Z)))
    (name : string) (taken : option string) (digits tail : string)
    (kwargs : list (string * Z)) (n : Z) :
  (∀ c t, is_digit c = true → rest (String c t) = None) →
  all_digits digits = true →
  (taken = None → digits ≠ "") →
  rest tail = Some kwargs →
  to_python (default "" taken +:+ digits) = Some n →
  match_int rest name taken (digits +:+ tail) = Some ((name, n) :: kwargs).
Proof.
  intros Hrest. revert taken.
  induction digits as [|c digits IH]; intros taken Hds Htaken Htail Hn.
  - rewrite append_nil_l. destruct taken as [v|]; [|by destruct Htaken].
    cbn [from_option id] in Hn. rewrite append_nil_r in Hn.
    destruct tail as [|c t]; simpl; [by rewrite Htail, Hn|].
    destruct (is_digit c) eqn:Hc; [|by rewrite Htail, Hn].
    by rewrite Hrest in Htail.
  - rewrite append_cons. simpl in *. apply andb_prop in Hds as [Hc Hds].
    rewrite Hc. rewrite (IH (Some (default "" taken +:+ String c "")));
      [done|done|done|done|].
    cbn [from_option id]. by rewrite append_snoc.
Qed.

Lemma match_route_Int_Lit (name text s : string)
    (kwargs : list (string * Z)) :
  (∃ c t, text = String c t ∧ is_digit c = false) →
  match_route [IntConverter name; Lit text] s = Some kwargs
  ↔ ∃ digits, identifier digits
      ∧ s = digits +:+ text
      ∧ kwargs = [(name, int_of_digits 0 digits)].
Proof.
  intros (c & t & -> & Hc). cbn [match_route]. split.
  - intros (digits & tail & kw & n & -> & Hds & Hne & Htail & Hn & ->)
      %match_int_sound.
    apply match_route_Lit in Htail as [-> ->].
    cbn [from_option id] in Hn. rewrite append_nil_l in Hn.
    apply to_python_Some in Hn as [Hlen ->].
    exists digits. unfold identifier. auto.
  - intros (digits & (Hne & Hds & Hlen) & -> & ->).
    apply (match_int_complete _ name None digits (String c t) []);
      [|done|done|by apply match_route_Lit|].
    + intros c' t' Hc'. cbn [match_route removeprefix].
      destruct (Ascii.eqb c c') eqn:Heq; [|done].
      apply Ascii.eqb_eq in Heq as ->. congruence.
    + cbn [from_option id]. rewrite append_nil_l. by apply to_python_Some.
Qed.

Lemma match_route_nil (s : string) (kwargs : list (string * Z)) :
  match_route [] s = Some kwargs ↔ s = "" ∧ kwargs = [].
Proof.
  simpl. case_decide as Hs.
  - split; [by intros [= <-]|by intros [_ ->]].
  - split; [done|]. by intros [? _].
Qed.

(** A run of digits ends where the first other character stands. *)
Lemma digits_split_unique (d1 d2 : string) (c1 c2 : ascii) (t1 t2 : string) :
  all_digits d1 = true → all_digits d2 = true →
  is_digit c1 = false → is_digit c2 = false →
  d1 +:+ String c1 t1 = d2 +:+ String c2 t2 →
  d1 = d2 ∧ String c1 t1 = String c2 t2.
Proof.
  revert d2. induction d1 as [|a d1 IH]; intros [|b d2] H1 H2 Hc1 Hc2;
    rewrite ?append_nil_l, ?append_cons; simpl in H1, H2.
  - done.
  - intros [= -> _]. apply andb_prop in H2 as [H2 _]. congruence.
  - intros [= -> _]. apply andb_prop in H1 as [H1 _]. congruence.
  - apply andb_prop in H1 as [_ H1]. apply andb_prop in H2 as [_ H2].
    intros [= -> Heq]. destruct (IH d2 H1 H2 Hc1 Hc2 Heq) as [-> ?]. done.
Qed.

(** Each pattern matches exactly the paths [routes_to] lists for its
    view. *)
Lemma pattern_match_spec (p : URLPattern) (s : string)
    (kwargs : list (string * Z)) :
  p ∈ urlpatterns →
  match_route (route p) s = Some kwargs ↔ routes_to s (callback p) kwargs.
Proof.
  unfold urlpatterns. rewrite !elem_of_cons, elem_of_nil.
  intros [->|[->|[->|[->|[->|[->|[->|[->|[]]]]]]]]]; cbn [route callback].
  - rewrite match_route_nil. split; [intros [-> ->]; constructor|by inv 1].
  - rewrite match_route_Lit. split; [intros [-> ->]; constructor|by inv 1].
  - rewrite match_route_Lit. split; [intros [-> ->]; constructor|by inv 1].
  - rewrite match_route_Int_Lit by (by eexists _, _).
    split; [intros (d & ? & -> & ->); by constructor|inv 1; eauto].
  - rewrite match_route_Int_Lit by (by eexists _, _).
    split; [intros (d & ? & -> & ->); by constructor|inv 1; eauto].
  - rewrite match_route_Int_Lit by (by eexists _, _).
    split; [intros (d & ? & -> & ->); by constructor|inv 1; eauto].
  - rewrite match_route_Int_Lit by (by eexists _, _).
    split; [intros (d & ? & -> & ->); by constructor|inv 1; eauto].
  - rewrite match_route_Lit. split; [intros [-> ->]; constructor|by inv 1].
Qed.

(** A literal path of the module does not start with a digit. *)
Ltac not_a_number H :=
  match type of H with
  | _ = ?d +:+ _ =>
      destruct d as [|? ?]; [done|];
      rewrite append_cons in H; try discriminate H;
      injection H as <- H;
      match goal with Hd : all_digits (String _ _) = true |- _ =>
        by apply andb_prop in Hd as [Hd _]
      end
  end.

(** No path belongs to two views. *)
Lemma routes_to_functional (s : string) (v1 v2 : view)
    (k1 k2 : list (string * Z)) :
  routes_to s v1 k1 → routes_to s v2 k2 → v1 = v2 ∧ k1 = k2.
Proof.
  intros H1 H2.
  inversion H1 as [| | |d1 I1 E1|d1 I1 E1|d1 I1 E1|d1 I1 E1|]; subst;
    inversion H2 as [E2|E2|E2|d2 I2 E2|d2 I2 E2|d2 I2 E2|d2 I2 E2|E2];
    try done;
    repeat match goal with
           | H : identifier _ |- _ => destruct H as (? & ? & ?)
           end;
    try (symmetry in E2; not_a_number E2); try not_a_number E2;
    apply digits_split_unique in E2 as [-> [=]]; done.
Qed.

Lemma resolve_in_Some (patterns : list URLPattern) (s : string)
    (p : URLPattern) (kwargs : list (string * Z)) :
  resolve_in patterns s = Some (p, kwargs) →
  p ∈ patterns ∧ match_route (route p) s = Some kwargs.
Proof.
  induction patterns as [|q patterns IH]; simpl; [done|].
  destruct (match_route (route q) s) as [kw|] eqn:Hq.
  - intros [= <- <-]. split; [left|done].
  - intros [Hin Hm]%IH. split; [by right|done].
Qed.

Lemma resolve_in_matching (patterns : list URLPattern) (s : string)
    (p : URLPattern) (kwargs : list (string * Z)) :
  p ∈ patterns → match_route (route p) s = Some kwargs →
  ∃ p' kwargs', resolve_in patterns s = Some (p', kwargs').
Proof.
  induction patterns as [|q patterns IH]; [by intros ?%elem_of_nil|].
  intros Hin Hm. simpl.
  destruct (match_route (route q) s) as [kw|] eqn:Hq; [eauto|].
  apply elem_of_cons in Hin as [->|Hin]; [congruence|eauto].
Qed.

Lemma callback_pattern (v : view) : ∃ p, p ∈ urlpatterns ∧ callback p = v.
Proof.
  assert (Forall (λ v, ∃ p, p ∈ urlpatterns ∧ callback p = v)
            (callback <$> urlpatterns)) as Hall.
  { apply Forall_fmap, Forall_forall. intros p Hp. by exists p. }
  unfold urlpatterns in Hall at 2. cbn in Hall.
  rewrite !Forall_cons in Hall. destruct v; tauto.
Qed.

Lemma url_resolution_sound (s : string) (v : view)
    (kwargs : list (string * Z)) :
  (∃ p, resolve s = Some (p, kwargs) ∧ callback p = v) → routes_to s v kwargs.
Proof.
  unfold resolve. intros (p & [Hin Hm]%resolve_in_Some & <-).
  by apply pattern_match_spec.
Qed.

(** X4: a path resolves to a view exactly when it is one of the paths of
    the module: the empty path, [api/list/], [create/], [export/], or a
    run of 1 to 4300 digits followed by [/], [/edit/], [/delete/] or
    [/update-stats/]; the identifier handed to the view is the number the
    digits spell (leading zeros allowed and counted).  A longer run of
    digits, which [int] refuses to convert, resolves to no view. *)
Theorem url_resolution (s : string) (v : view) (kwargs : list (string * Z)) :
  (∃ p, resolve s = Some (p, kwargs) ∧ callback p = v) ↔ routes_to s v kwargs.
Proof.
  split; [apply url_resolution_sound|]. unfold resolve.
  intros Hr. destruct (callback_pattern v) as (p & Hin & <-).
  pose proof (proj2 (pattern_match_spec p s kwargs Hin) Hr) as Hm.
  destruct (resolve_in_matching _ _ _ _ Hin Hm) as (p' & kw' & Hres).
  exists p'. pose proof (resolve_in_Some _ _ _ _ Hres) as [Hin' Hm'].
  apply pattern_match_spec in Hm'; [|done].
  destruct (routes_to_functional _ _ _ _ _ Hr Hm') as [-> ->]. done.
Qed.

(** X5: the URL patterns do not overlap: a path is matched by at most one
    of them, so their order in [urlpatterns] has no influence, and the
    arguments taken from the path are determined by it. *)
Theorem urlpatterns_disjoint (s : string) (p1 p2 : URLPattern)
    (k1 k2 : list (string * Z)) :
  p1 ∈ urlpatterns → p2 ∈ urlpatterns →
  match_route (route p1) s = Some k1 →
  match_route (route p2) s = Some k2 →
  p1 = p2 ∧ k1 = k2.
Proof.
  intros Hin1 Hin2 H1%pattern_match_spec H2%pattern_match_spec; [|done..].
  destruct (routes_to_functional _ _ _ _ _ H1 H2) as [Hv ->].
  split; [|done]. revert Hin1 Hin2 Hv. unfold urlpatterns.
  rewrite !elem_of_cons, !elem_of_nil.
  intros [->|[->|[->|[->|[->|[->|[->|[->|[]]]]]]]]]
    [->|[->|[->|[->|[->|[->|[->|[->|[]]]]]]]]]; done.
Qed.

Lemma urlpatterns_disjoint_witness :
  let p := path [IntConverter "customer_id"; Lit "/edit/"]
             views_customer_edit "edit" in
  p ∈ urlpatterns
  ∧ match_route (route p) "42/edit/" = Some [("customer_id", 42)]
  ∧ p = p ∧ [("customer_id", 42)] = [("customer_id", 42)].
Proof.
  cbv zeta.
  assert (path [IntConverter "customer_id"; Lit "/edit/"]
            views_customer_edit "edit" ∈ urlpatterns) as Hin.
  { unfold urlpatterns.
    repeat first [apply list_elem_of_here | apply list_elem_of_further]. }
  split; [exact Hin|]. split; [reflexivity|].
  exact (urlpatterns_disjoint "42/edit/" _ _ _ _ Hin Hin eq_refl eq_refl).
Defined.

(** The identifier taken from a path is never negative. *)
Lemma routes_to_customer_id (s : string) (v : view) (key : string) (pk : Z)
    (kwargs : list (string * Z)) :
  routes_to s v ((key, pk) :: kwargs) →
  key = "customer_id" ∧ kwargs = [] ∧ 0 ≤ pk.
Proof.
  inversion 1 as [| | |d [_ [Hd _]]|d [_ [Hd _]]|d [_ [Hd _]]|d [_ [Hd _]]|];
    subst; (split; [done|split; [done|]]);
    by apply int_of_digits_nonneg.
Qed.

(** ** One request at a time *)

Lemma get_response_table (view : DB Customer.t HttpResponse)
    (db : gmap Z Customer.t) :
  (get_response view db).2 = (view db).2.
Proof.
  unfold get_response. destruct (view db) as [[r|e] db']; [done|].
  by destruct (isinstance e Http404).
Qed.

(** Every request either finds no view (404) or is answered by one of the
    eight handlers. *)
Lemma dispatch_handler (call : Call) (db : gmap Z Customer.t) :
  dispatch call db = (HttpResponseNotFound "Not Found", db)
  ∨ ∃ handler, is_handler call handler
      ∧ dispatch call db = get_response handler db.
Proof.
  unfold dispatch.
  destruct (resolve (call_path call)) as [[p kwargs]|] eqn:Hres; [|by left].
  right.
  assert (routes_to (call_path call) (callback p) kwargs) as Hr.
  { apply url_resolution_sound. by exists p. }
  destruct p as [r v n]. cbn [callback] in *.
  inversion Hr as [| | |d [_ [Hd _]]|d [_ [Hd _]]|d [_ [Hd _]]|d [_ [Hd _]]|];
    subst; eexists; (split; [|reflexivity]); constructor;
    by apply int_of_digits_nonneg.
Qed.

(** ** Trimmed names *)

Lemma lstrip_head (s : string) (c : ascii) (t : string) :
  lstrip s = String c t → isspace c = false.
Proof.
  induction s as [|a s IH]; simpl; [done|].
  destruct (isspace a) eqn:Ha; [done|]. by intros [= <- _].
Qed.

Lemma lstrip_fixed (c : ascii) (t : string) :
  isspace c = false → lstrip (String c t) = String c t.
Proof. intros Hc. simpl. by rewrite Hc. Qed.

Lemma rstrip_head (s : string) (c : ascii) (t : string) :
  rstrip s = String c t → ∃ t', s = String c t'.
Proof.
  destruct s as [|a s]; simpl; [done|].
  destruct (rstrip s); [destruct (isspace a)|]; intros [= <- _]; eauto.
Qed.

Lemma rstrip_cons (c : ascii) (s : string) :
  rstrip (String c s)
  = match rstrip s with
    | EmptyString => if isspace c then EmptyString else String c EmptyString
    | r => String c r
    end.
Proof. reflexivity. Qed.

Lemma rstrip_idempotent (s : string) : rstrip (rstrip s) = rstrip s.
Proof.
  induction s as [|c s IH]; [done|]. rewrite rstrip_cons.
  destruct (rstrip s) as [|a r] eqn:Hr.
  - destruct (isspace c) eqn:Hc; [done|]. simpl. by rewrite Hc.
  - by rewrite rstrip_cons, IH.
Qed.

(** Trimming a trimmed text changes nothing. *)
Lemma strip_idempotent (s : string) : strip (strip s) = strip s.
Proof.
  unfold strip. destruct (rstrip (lstrip s)) as [|c t] eqn:Hr; [done|].
  destruct (rstrip_head _ _ _ Hr) as [t' Hl].
  rewrite lstrip_fixed by (by eapply lstrip_head).
  by rewrite <- Hr, rstrip_idempotent.
Qed.

Lemma clean_strip (s : string) : strip s ≠ "" → clean (strip s).
Proof. intros Hne. split; [done|apply strip_idempotent]. Qed.

(** ** What a request does to the table *)

Lemma update_stats_row (sales : list Sale.t) (now : datetime) (pk : Z)
    (c : Customer.t) (db : gmap Z Customer.t) :
  db !! pk = Some c →
  ∃ c', Customer.update_stats (Some sales) now c db
        = (Ok c', <[Customer.id c := c']> db)
    ∧ Customer.id c' = Customer.id c
    ∧ Customer.created_at c' = Customer.created_at c
    ∧ Customer.name c' = Customer.name c
    ∧ Customer.email c' = Customer.email c
    ∧ Customer.phone c' = Customer.phone c
    ∧ Customer.address c' = Customer.address c
    ∧ Customer.tax_id c' = Customer.tax_id c
    ∧ Customer.notes c' = Customer.notes c
    ∧ Customer.is_active c' = Customer.is_active c.
Proof.
  intros Hpk. eexists. split; [apply update_stats_installed|].
  cbn [Customer.id Customer.created_at Customer.name Customer.email
       Customer.phone Customer.address Customer.tax_id Customer.notes
       Customer.is_active].
  rewrite decide_True; [done|]. by exists pk, c.
Qed.

(** The answer of the update-stats handler for a stored customer: the
    figures of the instance [update_stats] returns. *)
Lemma customer_update_stats_found (sales_app : option (list Sale.t))
    (now : datetime) (request : HttpRequest) (pk : Z) (c c' : Customer.t)
    (db db' : gmap Z Customer.t) :
  method request = "POST" → db !! pk = Some c →
  Customer.update_stats sales_app now c db = (Ok c', db') →
  ∃ average,
    Customer.average_purchase c' = Ok average
    ∧ customer_update_stats sales_app now request pk db
      = (Ok (JsonResponse
               [("success", JBool true);
                ("total_spent", JFloat (Customer.total_spent c'));
                ("visit_count", JInt (Customer.visit_count c'));
                ("average_purchase", JFloat average)]),
         db').
Proof.
  intros Hm Hpk Hup. destruct (average_purchase_returns c') as [average Havg].
  exists average. split; [done|]. unfold customer_update_stats.
  rewrite require_http_methods_permitted by (rewrite Hm; set_solver).
  unfold try_except, mbind, DB_bind.
  rewrite (get_object_or_404_found _ _ _ Hpk), Hup.
  unfold lift. by rewrite Havg.
Qed.

Lemma customer_create_step (now : datetime) (request : HttpRequest)
    (db : gmap Z Customer.t) :
  table_step db (customer_create now request db).2.
Proof.
  destruct (decide (method request = "POST")) as [Hm|Hm].
  - destruct (decide (strip (qd_get (POST request) "name" "") = ""))
      as [Hname|Hname].
    + rewrite customer_create_blank_name by done. constructor.
    + destruct (customer_create_valid now request db Hm Hname) as [Hfresh ->].
      cbn [snd]. by apply (row_added db {| Customer.id := _ |});
        [|apply clean_strip].
  - destruct (read_only_unless_POST None now request 0 Hm) as (-> & _).
    constructor.
Qed.

Lemma customer_edit_step (now : datetime) (request : HttpRequest) (pk : Z)
    (db : gmap Z Customer.t) :
  table_step db (customer_edit now request pk db).2.
Proof.
  destruct (decide (method request = "POST")) as [Hm|Hm].
  - destruct (db !! pk) as [c|] eqn:Hpk.
    + destruct (decide (strip (qd_get (POST request) "name" "") = ""))
        as [Hname|Hname].
      * rewrite (customer_edit_blank_name _ _ _ c) by done. constructor.
      * rewrite (customer_edit_valid _ _ _ c) by done. cbn [snd].
        apply (row_replaced db pk c); [done..|]. right.
        by apply clean_strip.
    + rewrite <- get_response_table, customer_edit_unknown;
        [constructor|rewrite Hm; set_solver|done].
  - destruct (read_only_unless_POST None now request pk Hm) as (_ & -> & _).
    constructor.
Qed.

Lemma customer_delete_step (now : datetime) (request : HttpRequest) (pk : Z)
    (db : gmap Z Customer.t) :
  table_step db (customer_delete now request pk db).2.
Proof.
  destruct (decide (method request = "POST")) as [Hm|Hm].
  - destruct (db !! pk) as [c|] eqn:Hpk.
    + rewrite (customer_delete_found _ _ _ c) by done. cbn [snd].
      apply (row_replaced db pk c); [done..|]. by left.
    + rewrite <- get_response_table, customer_delete_unknown by done.
      constructor.
  - destruct (read_only_unless_POST None now request pk Hm) as (_ & _ & -> & _).
    constructor.
Qed.

Lemma customer_update_stats_step (sales_app : option (list Sale.t))
    (now : datetime) (request : HttpRequest) (pk : Z) (db : gmap Z Customer.t) :
  table_step db (customer_update_stats sales_app now request pk db).2.
Proof.
  destruct (decide (method request = "POST")) as [Hm|Hm].
  - destruct (db !! pk) as [c|] eqn:Hpk.
    + destruct sales_app as [sales|].
      * destruct (update_stats_row sales now pk c db Hpk)
          as (c' & Hup & Hid & Hcreated & Hname & _).
        destruct (customer_update_stats_found _ _ _ _ _ _ _ _ Hm Hpk Hup)
          as (average & _ & ->).
        cbn [snd]. apply (row_replaced db pk c); [done..|]. by left.
      * destruct (customer_update_stats_found None now request pk c c db db
                    Hm Hpk eq_refl) as (average & _ & ->).
        constructor.
    + rewrite <- get_response_table, customer_update_stats_unknown by done.
      constructor.
  - destruct (read_only_unless_POST sales_app now request pk Hm)
      as (_ & _ & _ & ->).
    constructor.
Qed.

Lemma handler_step (call : Call) (handler : DB Customer.t HttpResponse)
    (db : gmap Z Customer.t) :
  is_handler call handler → table_step db (handler db).2.
Proof.
  destruct 1 as [| | |pk _|pk _|pk _|pk _|].
  - destruct (pages_read_only None 0 (call_request call) 0) as (-> & _).
    constructor.
  - destruct (pages_read_only None 0 (call_request call) 0) as (_ & -> & _).
    constructor.
  - apply customer_create_step.
  - destruct (pages_read_only (call_sales_app call) 0 (call_request call) pk)
      as (_ & _ & -> & _).
    constructor.
  - apply customer_edit_step.
  - apply customer_delete_step.
  - apply customer_update_stats_step.
  - destruct (pages_read_only None (call_now call) (call_request call) 0)
      as (_ & _ & _ & ->).
    constructor.
Qed.

Lemma dispatch_step (call : Call) (db : gmap Z Customer.t) :
  table_step db (dispatch call db).2.
Proof.
  destruct (dispatch_handler call db) as [->|(handler & Hh & ->)].
  - constructor.
  - rewrite get_response_table. by apply (handler_step call).
Qed.

(** X6: one request changes at most one row.  Whatever the path, the
    method and the form, the table afterwards is the table before, or the
    table before with one stored customer replaced by a row of the same
    identifier and creation time (whose name is the old one or a trimmed
    non-empty one), or the table before with one row added under a key
    that was not in use (with a trimmed non-empty name). *)
Theorem dispatch_table_step (call : Call) (db : gmap Z Customer.t) :
  (dispatch call db).2 = db
  ∨ (∃ pk c c',
       db !! pk = Some c
       ∧ (dispatch call db).2 = <[Customer.id c := c']> db
       ∧ Customer.id c' = Customer.id c
       ∧ Customer.created_at c' = Customer.created_at c
       ∧ (Customer.name c' = Customer.name c
          ∨ Customer.name c' ≠ "" ∧ strip (Customer.name c') = Customer.name c'))
  ∨ (∃ row,
       db !! Customer.id row = None
       ∧ (dispatch call db).2 = <[Customer.id row := row]> db
       ∧ Customer.name row ≠ ""
       ∧ strip (Customer.name row) = Customer.name row).
Proof.
  destruct (dispatch_step call db) as [|pk c c' Hpk Hid Hcreated Hname
                                       |row Hfresh [Hne Htrim]].
  - by left.
  - right; left. exists pk, c, c'. unfold clean in Hname. tauto.
  - right; right. by exists row.
Qed.

(** ** Sequences of requests *)

Lemma table_step_keyed (db db' : gmap Z Customer.t) :
  keyed db → table_step db db' → keyed db'.
Proof.
  intros Hk [|pk c c' Hpk Hid _ _|row _ _]; [done| |].
  - rewrite <- Hid. by apply keyed_insert.
  - by apply keyed_insert.
Qed.

Lemma table_step_names_clean (db db' : gmap Z Customer.t) :
  names_clean db → table_step db db' → names_clean db'.
Proof.
  intros Hn [|pk c c' Hpk _ _ Hname|row _ Hname]; [done| |].
  - apply map_Forall_insert_2; [|done].
    destruct Hname as [->|Hclean]; [|done]. exact (Hn pk c Hpk).
  - by apply map_Forall_insert_2.
Qed.

Lemma table_step_lookup (db db' : gmap Z Customer.t) (pk : Z)
    (c : Customer.t) :
  keyed db → table_step db db' → db !! pk = Some c →
  ∃ c', db' !! pk = Some c'
    ∧ Customer.id c' = Customer.id c
    ∧ Customer.created_at c' = Customer.created_at c.
Proof.
  intros Hk [|pk0 c0 c0' Hpk0 Hid Hcreated _|row Hfresh _] Hpk; [eauto| |].
  - rewrite (keyed_lookup _ _ _ Hk Hpk0).
    destruct (decide (pk0 = pk)) as [->|Hne].
    + rewrite lookup_insert_eq. rewrite Hpk in Hpk0. injection Hpk0 as ->.
      eauto.
    + rewrite lookup_insert_ne by done. eauto.
  - rewrite lookup_insert_ne by congruence. eauto.
Qed.

Lemma serve_cons (call : Call) (calls : list Call) (db : gmap Z Customer.t) :
  serve (call :: calls) db = serve calls (dispatch call db).2.
Proof. reflexivity. Qed.

Lemma serve_keyed (calls : list Call) (db : gmap Z Customer.t) :
  keyed db → keyed (serve calls db).
Proof.
  revert db. induction calls as [|call calls IH]; intros db Hk; [done|].
  rewrite serve_cons. apply IH.
  by apply (table_step_keyed db), dispatch_step.
Qed.

(** X7: in every table reached from the empty table by a sequence of
    requests, each row is stored under its own identifier and each name is
    non-empty with no white space at either end. *)
Theorem reachable_tables (calls : list Call) :
  keyed (serve calls ∅) ∧ names_clean (serve calls ∅).
Proof.
  split; [apply serve_keyed, keyed_empty|].
  assert (∀ db, names_clean db → names_clean (serve calls db)) as Hn.
  { induction calls as [|call calls IH]; intros db Hdb; [done|].
    rewrite serve_cons. apply IH.
    by apply (table_step_names_clean db), dispatch_step. }
  apply Hn, map_Forall_empty.
Qed.

(** X8: no sequence of requests removes a customer or changes its
    identifier or its creation time: a customer stored under a key is still
    stored under that key afterwards, with the same [id] and
    [created_at]. *)
Theorem customers_are_kept (calls : list Call) (db : gmap Z Customer.t)
    (pk : Z) (c : Customer.t) :
  keyed db → db !! pk = Some c →
  ∃ c', serve calls db !! pk = Some c'
    ∧ Customer.id c' = Customer.id c
    ∧ Customer.created_at c' = Customer.created_at c.
Proof.
  revert db c. induction calls as [|call calls IH]; intros db c Hk Hpk;
    [by exists c|].
  rewrite serve_cons.
  pose proof (dispatch_step call db) as Hstep.
  destruct (table_step_lookup _ _ _ _ Hk Hstep Hpk) as (c1 & Hpk1 & <- & <-).
  apply IH; [by apply (table_step_keyed db)|done].
Qed.

Lemma customers_are_kept_witness :
  let c := sample_customer 1 "Test Customer" 0 in
  keyed sample_db ∧ sample_db !! 1 = Some c
  ∧ ∃ c', serve sample_calls sample_db !! 1 = Some c'
      ∧ Customer.id c' = Customer.id c
      ∧ Customer.created_at c' = Customer.created_at c.
Proof.
  cbv zeta.
  split; [unfold keyed; apply (bool_decide_unpack _); by vm_compute|].
  split; [reflexivity|].
  apply (customers_are_kept sample_calls sample_db 1
           (sample_customer 1 "Test Customer" 0));
    [unfold keyed; apply (bool_decide_unpack _); by vm_compute|reflexivity].
Defined.

(** The table after the two sample requests: customer 1 inactive, a second
    customer with the trimmed name. *)
Example serve_sample_calls :
  serve sample_calls sample_db
  = {[ 1 := Customer.set_updated_at 7
              (Customer.set_is_active false
                 (sample_customer 1 "Test Customer" 0));
       2 := sample_customer 2 "New Customer" 8 ]}.
Proof. by vm_compute. Qed.

(** ** Creation, as seen by a client *)

Lemma next_pk_positive (db : gmap Z Customer.t) : 1 ≤ Customer.next_pk db.
Proof.
  unfold Customer.next_pk.
  apply (map_fold_weak_ind (λ acc (m : gmap Z Customer.t), 1 ≤ 1 + acc));
    [done|].
  intros i x m acc _ IH. lia.
Qed.

(** X9: a create POST with a name that is not blank adds exactly one
    customer, under an identifier that was not in use, is positive and is
    larger than every identifier in use, and answers with that identifier; the new customer has the trimmed form values, no purchases,
    [is_active = true] and both timestamps at the time of the request, and
    can be looked up by the identifier; no stored customer is touched. *)
Theorem create_adds_customer (now : datetime) (request : HttpRequest)
    (db : gmap Z Customer.t) :
  method request = "POST" →
  strip (qd_get (POST request) "name" "") ≠ "" →
  ∃ pk row db',
    customer_create now request db
    = (Ok (JsonResponse
             [("success", JBool true);
              ("message", JStr "Cliente creado correctamente");
              ("customer_id", JInt pk)]),
       db')
    ∧ db !! pk = None
    ∧ 1 ≤ pk
    ∧ (∀ other, is_Some (db !! other) → other < pk)
    ∧ get_object_or_404 pk db' = (Ok row, db')
    ∧ (∀ other, other ≠ pk → db' !! other = db !! other)
    ∧ size db' = S (size db)
    ∧ (Customer.id row = pk
       ∧ Customer.name row = strip (qd_get (POST request) "name" "")
       ∧ Customer.email row = strip (qd_get (POST request) "email" "")
       ∧ Customer.phone row = strip (qd_get (POST request) "phone" "")
       ∧ Customer.address row = strip (qd_get (POST request) "address" "")
       ∧ Customer.tax_id row = strip (qd_get (POST request) "tax_id" "")
       ∧ Customer.notes row = strip (qd_get (POST request) "notes" ""))
    ∧ (Customer.total_spent row = 0%Qc
       ∧ Customer.visit_count row = 0
       ∧ Customer.last_purchase_at row = None
       ∧ Customer.is_active row = true
       ∧ Customer.created_at row = now
       ∧ Customer.updated_at row = now).
Proof.
  intros Hm Hname.
  destruct (customer_create_valid now request db Hm Hname) as [Hfresh Hcreate].
  eexists _, _, _. split; [exact Hcreate|]. split; [done|].
  split; [apply next_pk_positive|].
  split; [intros other [c Hc]; by apply (next_pk_above db other c)|].
  split; [apply get_object_or_404_found, lookup_insert_eq|].
  split; [intros other Hne; by rewrite lookup_insert_ne|].
  split; [by apply map_size_insert_None|]. done.
Qed.

Lemma create_adds_customer_witness :
  let request := POST_request [("name", " New Customer "); ("phone", "600")] in
  method request = "POST"
  ∧ strip (qd_get (POST request) "name" "") ≠ ""
  ∧ ∃ pk row db',
      customer_create 8 request sample_db
      = (Ok (JsonResponse
               [("success", JBool true);
                ("message", JStr "Cliente creado correctamente");
                ("customer_id", JInt pk)]),
         db')
      ∧ sample_db !! pk = None
      ∧ 1 ≤ pk
      ∧ (∀ other, is_Some (sample_db !! other) → other < pk)
      ∧ get_object_or_404 pk db' = (Ok row, db')
      ∧ (∀ other, other ≠ pk → db' !! other = sample_db !! other)
      ∧ size db' = S (size sample_db)
      ∧ (Customer.id row = pk
         ∧ Customer.name row = strip (qd_get (POST request) "name" "")
         ∧ Customer.email row = strip (qd_get (POST request) "email" "")
         ∧ Customer.phone row = strip (qd_get (POST request) "phone" "")
         ∧ Customer.address row = strip (qd_get (POST request) "address" "")
         ∧ Customer.tax_id row = strip (qd_get (POST request) "tax_id" "")
         ∧ Customer.notes row = strip (qd_get (POST request) "notes" ""))
      ∧ (Customer.total_spent row = 0%Qc
         ∧ Customer.visit_count row = 0
         ∧ Customer.last_purchase_at row = None
         ∧ Customer.is_active row = true
         ∧ Customer.created_at row = 8
         ∧ Customer.updated_at row = 8).
Proof.
  cbv zeta. split; [reflexivity|]. split; [discriminate|].
  apply (create_adds_customer 8
           (POST_request [("name", " New Customer "); ("phone", "600")])
           sample_db); [reflexivity|discriminate].
Defined.

(** ** Recent purchases *)

(** X10: with the sales application installed, [get_recent_purchases]
    returns at most [limit] sales, all of them completed sales recorded under
    the customer's name, newest first; they are the head of the complete
    ordered list of such sales, so a sale is left out only when [limit] sales
    at least as new are returned.  The customer table is not written. *)
Theorem get_recent_purchases_spec (sales : list Sale.t) (c : Customer.t) (limit : nat)
    (db : gmap Z Customer.t) :
  ∃ purchases rest,
    Customer.get_recent_purchases (Some sales) c limit db = (Ok purchases, db)
    ∧ (length purchases ≤ limit)%nat
    ∧ (rest ≠ [] → length purchases = limit)
    ∧ StronglySorted
        (λ a b, Sale.created_at b ≤ Sale.created_at a) (purchases ++ rest)
    ∧ purchases ++ rest
      ≡ₚ filter (λ s, Sale.customer_name s = Customer.name c
                      ∧ Sale.status s = "completed") sales.
Proof.
  set (ordered := merge_sort Customer.newest_sale_first
                    (Customer.completed_sales sales c)).
  exists (take limit ordered), (drop limit ordered).
  split; [reflexivity|]. split; [rewrite length_take; lia|].
  rewrite take_drop. split; [|split].
  - intros Hrest. rewrite length_take. apply Nat.min_l.
    destruct (decide (limit ≤ length ordered)%nat) as [|Hshort]; [done|].
    destruct Hrest. apply drop_ge. lia.
  - apply (StronglySorted_merge_sort Customer.newest_sale_first).
  - apply merge_sort_Permutation.
Qed.

(** The most recent purchase of Ann in [sample_sales]. *)
Example recent_purchases_sample :
  (Customer.get_recent_purchases (Some sample_sales)
     (sample_customer 1 "Ann" 0) 1 ∅).1
  = Ok [ {| Sale.customer_name := "Ann"; Sale.status := "completed";
            Sale.total := Q2Qc (9 # 2); Sale.created_at := 300 |} ].
Proof. reflexivity. Qed.

(** ** Counts *)

Lemma active_inactive_length (customers : list Customer.t) :
  (length (filter (λ c, Customer.is_active c = true) customers)
   + length (filter (λ c, Customer.is_active c = false) customers)
   = length customers)%nat.
Proof.
  induction customers as [|c customers IH]; [done|].
  rewrite !filter_cons. destruct (Customer.is_active c) eqn:Hc.
  - rewrite decide_True, decide_False by done. simpl. lia.
  - rewrite decide_False, decide_True by done. simpl. lia.
Qed.

Lemma customer_list_response (request : HttpRequest) (db : gmap Z Customer.t) :
  method request = "GET" →
  customer_list request db
  = (Ok (render
           (if HX_Request request then "customer/partials/list_content.html"
            else "customer/pages/list.html")
           [("total_customers",
             CtxInt (Z.of_nat
                       (length (filter (λ c, Customer.is_active c = true)
                                  (map_to_list db).*2))));
            ("inactive_customers",
             CtxInt (Z.of_nat
                       (length (filter (λ c, Customer.is_active c = false)
                                  (map_to_list db).*2))));
            ("page_title", CtxStr "Clientes")]),
     db).
Proof.
  intros Hm. unfold customer_list.
  rewrite require_http_methods_permitted by (rewrite Hm; set_solver).
  unfold mbind, DB_bind, Customer.objects_all.
  by destruct (HX_Request request).
Qed.

(** X11: the two counters of the list page add up to the number of stored
    customers: every customer is counted once, as active or as inactive.
    The page is the fragment for a request marked [HX-Request] and the full
    page otherwise. *)
Theorem dashboard_counts (request : HttpRequest) (db : gmap Z Customer.t) :
  method request = "GET" →
  ∃ total_customers inactive_customers,
    customer_list request db
    = (Ok (render
             (if HX_Request request
              then "customer/partials/list_content.html"
              else "customer/pages/list.html")
             [("total_customers", CtxInt total_customers);
              ("inactive_customers", CtxInt inactive_customers);
              ("page_title", CtxStr "Clientes")]),
       db)
    ∧ 0 ≤ total_customers ∧ 0 ≤ inactive_customers
    ∧ total_customers + inactive_customers = Z.of_nat (size db)
    ∧ (inactive_customers = 0
       ↔ ∀ c, stored db c → Customer.is_active c = true).
Proof.
  intros Hm. eexists _, _. split; [by apply customer_list_response|].
  split; [lia|]. split; [lia|]. split.
  - rewrite <- Nat2Z.inj_add, active_inactive_length.
    by rewrite length_fmap, length_map_to_list.
  - rewrite <- Nat2Z.inj_0, Nat2Z.inj_iff, length_zero_iff_nil. split.
    + intros Hnil c Hc%objects_all_stored.
      destruct (Customer.is_active c) eqn:Hact; [done|].
      assert (c ∈ filter (λ c, Customer.is_active c = false)
                (map_to_list db).*2) as Hin
        by (by apply list_elem_of_filter).
      rewrite Hnil in Hin. by apply elem_of_nil in Hin.
    + intros Hall.
      destruct (filter (λ c, Customer.is_active c = false)
                  (map_to_list db).*2) as [|c l] eqn:Hf; [done|].
      assert (c ∈ filter (λ c, Customer.is_active c = false)
                (map_to_list db).*2) as [Hact Hc]%list_elem_of_filter
        by (rewrite Hf; left).
      apply objects_all_stored in Hc. rewrite (Hall c Hc) in Hact. done.
Qed.

Lemma dashboard_counts_witness :
  let request := GET_request [] in
  method request = "GET"
  ∧ ∃ total_customers inactive_customers,
      customer_list request mixed_db
      = (Ok (render
               (if HX_Request request
                then "customer/partials/list_content.html"
                else "customer/pages/list.html")
               [("total_customers", CtxInt total_customers);
                ("inactive_customers", CtxInt inactive_customers);
                ("page_title", CtxStr "Clientes")]),
         mixed_db)
      ∧ 0 ≤ total_customers ∧ 0 ≤ inactive_customers
      ∧ total_customers + inactive_customers = Z.of_nat (size mixed_db)
      ∧ (inactive_customers = 0
         ↔ ∀ c, stored mixed_db c → Customer.is_active c = true).
Proof.
  cbv zeta. split; [reflexivity|].
  apply (dashboard_counts (GET_request []) mixed_db). reflexivity.
Defined.

(** The list page of the mixed table counts two active customers and one
    inactive. *)
Example dashboard_mixed_db :
  (customer_list (GET_request []) mixed_db).1
  = Ok (render "customer/pages/list.html"
          [("total_customers", CtxInt 2); ("inactive_customers", CtxInt 1);
           ("page_title", CtxStr "Clientes")]).
Proof. reflexivity. Qed.

(** ** The export and the list page agree *)

(** X12: the export holds one row of seven cells for the header and one
    for each active customer, so its number of data rows is the
    [total_customers] counter of the list page. *)
Theorem export_matches_dashboard (now : datetime)
    (export_request list_request : HttpRequest) (db : gmap Z Customer.t) :
  method export_request = "GET" → method list_request = "GET" →
  ∃ rows template total_customers others,
    customers_export now export_request db = (Ok (CsvAttachment now rows), db)
    ∧ customer_list list_request db
      = (Ok (render template
               (("total_customers", CtxInt total_customers) :: others)),
         db)
    ∧ Z.of_nat (length rows) = 1 + total_customers
    ∧ Forall (λ row, length row = 7%nat) rows.
Proof.
  intros He Hl. eexists _, _, _, _.
  split; [by apply customers_export_response|].
  split; [by apply customer_list_response|]. split.
  - cbn [length]. rewrite length_fmap. unfold customers_export_queryset.
    rewrite (order_by_length Customer.by_name). lia.
  - constructor; [done|]. apply Forall_fmap, Forall_forall. by intros c _.
Qed.

Lemma export_matches_dashboard_witness :
  let request := GET_request [] in
  method request = "GET" ∧ method request = "GET"
  ∧ ∃ rows template total_customers others,
      customers_export 40 request mixed_db
      = (Ok (CsvAttachment 40 rows), mixed_db)
      ∧ customer_list request mixed_db
        = (Ok (render template
                 (("total_customers", CtxInt total_customers) :: others)),
           mixed_db)
      ∧ Z.of_nat (length rows) = 1 + total_customers
      ∧ Forall (λ row, length row = 7%nat) rows.
Proof.
  cbv zeta. split; [reflexivity|]. split; [reflexivity|].
  apply (export_matches_dashboard 40 (GET_request []) (GET_request [])
           mixed_db); reflexivity.
Defined.

(** ** The status filters split the listing *)

Lemma active_inactive_Permutation (customers : list Customer.t) :
  filter (λ c, Customer.is_active c = true) customers
  ++ filter (λ c, Customer.is_active c = false) customers
  ≡ₚ customers.
Proof.
  rewrite <- (filter_app_complement (λ c, Customer.is_active c = true)
                customers) at 3.
  apply Permutation_app; [done|].
  assert (filter (λ c, Customer.is_active c = false) customers
          = filter (λ c, ¬ Customer.is_active c = true) customers) as ->;
    [|done].
  apply list_filter_iff. intros c. by destruct (Customer.is_active c).
Qed.

(** Before slicing, the active and the inactive listing for one search text
    make up the listing of all customers for that text. *)
Lemma customer_list_ajax_queryset_split
    (active inactive all : HttpRequest) (customers : list Customer.t) :
  qd_get (GET active) "status" "active" = "active" →
  qd_get (GET inactive) "status" "active" = "inactive" →
  qd_get (GET all) "status" "active" = "all" →
  strip (qd_get (GET active) "search" "")
  = strip (qd_get (GET all) "search" "") →
  strip (qd_get (GET inactive) "search" "")
  = strip (qd_get (GET all) "search" "") →
  customer_list_ajax_queryset active customers
  ++ customer_list_ajax_queryset inactive customers
  ≡ₚ customer_list_ajax_queryset all customers.
Proof.
  intros Ha Hi Hall Hsa Hsi. unfold customer_list_ajax_queryset. cbv zeta.
  rewrite Ha, Hi, Hall, Hsa, Hsi. rewrite !merge_sort_Permutation.
  repeat case_decide; try done.
  - apply active_inactive_Permutation.
  - rewrite <- filter_app. by rewrite active_inactive_Permutation.
Qed.

(** X13: for one search text, the listings for [status=active] and for
    [status=inactive] together hold exactly the customers of the listing for
    [status=all], each once, as long as the table holds at most 100
    customers (so that no listing is cut). *)
Theorem status_filters_partition (active inactive all : HttpRequest)
    (db : gmap Z Customer.t) :
  method active = "GET" → method inactive = "GET" → method all = "GET" →
  qd_get (GET active) "status" "active" = "active" →
  qd_get (GET inactive) "status" "active" = "inactive" →
  qd_get (GET all) "status" "active" = "all" →
  strip (qd_get (GET active) "search" "")
  = strip (qd_get (GET all) "search" "") →
  strip (qd_get (GET inactive) "search" "")
  = strip (qd_get (GET all) "search" "") →
  (size db ≤ 100)%nat →
  ∃ rows_active rows_inactive rows_all,
    customer_list_ajax active db = (Ok (listing_of rows_active), db)
    ∧ customer_list_ajax inactive db = (Ok (listing_of rows_inactive), db)
    ∧ customer_list_ajax all db = (Ok (listing_of rows_all), db)
    ∧ rows_active ++ rows_inactive ≡ₚ rows_all
    ∧ (∀ c, c ∈ rows_active → Customer.is_active c = true)
    ∧ (∀ c, c ∈ rows_inactive → Customer.is_active c = false).
Proof.
  intros Hma Hmi Hmall Ha Hi Hall Hsa Hsi Hsize.
  assert (∀ request,
    take 100 (customer_list_ajax_queryset request (map_to_list db).*2)
    = customer_list_ajax_queryset request (map_to_list db).*2) as Htake.
  { intros request. apply take_ge.
    destruct (customer_list_ajax_queryset_sublist request (map_to_list db).*2)
      as (kept & -> & Hsub).
    apply sublist_length in Hsub.
    rewrite length_fmap, length_map_to_list in Hsub. lia. }
  eexists _, _, _.
  split; [by apply customer_list_ajax_response|].
  split; [by apply customer_list_ajax_response|].
  split; [by apply customer_list_ajax_response|].
  rewrite !Htake. split; [by apply customer_list_ajax_queryset_split|].
  split.
  - intros c (_ & [Hact _] & _)%customer_list_ajax_queryset_spec. auto.
  - intros c (_ & [_ Hinact] & _)%customer_list_ajax_queryset_spec. auto.
Qed.

Lemma status_filters_partition_witness :
  let active := GET_request [("status", "active")] in
  let inactive := GET_request [("status", "inactive")] in
  let all := GET_request [("status", "all")] in
  (size pair_db ≤ 100)%nat
  ∧ ∃ rows_active rows_inactive rows_all,
      customer_list_ajax active pair_db = (Ok (listing_of rows_active), pair_db)
      ∧ customer_list_ajax inactive pair_db
        = (Ok (listing_of rows_inactive), pair_db)
      ∧ customer_list_ajax all pair_db = (Ok (listing_of rows_all), pair_db)
      ∧ rows_active ++ rows_inactive ≡ₚ rows_all
      ∧ (∀ c, c ∈ rows_active → Customer.is_active c = true)
      ∧ (∀ c, c ∈ rows_inactive → Customer.is_active c = false).
Proof.
  cbv zeta.
  assert (size pair_db ≤ 100)%nat as Hsize by (vm_compute; lia).
  split; [exact Hsize|].
  apply (status_filters_partition (GET_request [("status", "active")])
           (GET_request [("status", "inactive")])
           (GET_request [("status", "all")]) pair_db);
    try reflexivity; exact Hsize.
Defined.

(** ** Statistics, as seen by a client *)

(** X14: for a stored customer the update-stats handler reports the
    figures of the row that is stored under the identifier afterwards; that
    row differs from the one before in no text field and not in
    [is_active], and no other row is touched.  This holds with and without
    the sales application. *)
Theorem update_stats_reports_stored (sales_app : option (list Sale.t))
    (now : datetime) (request : HttpRequest) (pk : Z) (c : Customer.t)
    (db : gmap Z Customer.t) :
  method request = "POST" → keyed db → db !! pk = Some c →
  ∃ c' average db',
    customer_update_stats sales_app now request pk db
    = (Ok (JsonResponse
             [("success", JBool true);
              ("total_spent", JFloat (Customer.total_spent c'));
              ("visit_count", JInt (Customer.visit_count c'));
              ("average_purchase", JFloat average)]),
       db')
    ∧ db' !! pk = Some c'
    ∧ Customer.average_purchase c' = Ok average
    ∧ (∀ other, other ≠ pk → db' !! other = db !! other)
    ∧ (Customer.name c' = Customer.name c
       ∧ Customer.email c' = Customer.email c
       ∧ Customer.phone c' = Customer.phone c
       ∧ Customer.address c' = Customer.address c
       ∧ Customer.tax_id c' = Customer.tax_id c
       ∧ Customer.notes c' = Customer.notes c
       ∧ Customer.is_active c' = Customer.is_active c).
Proof.
  intros Hm Hk Hpk. pose proof (keyed_lookup _ _ _ Hk Hpk) as Hid.
  destruct sales_app as [sales|].
  - destruct (update_stats_row sales now pk c db Hpk)
      as (c' & Hup & _ & _ & Hfields).
    destruct (customer_update_stats_found _ _ _ _ _ _ _ _ Hm Hpk Hup)
      as (average & Havg & ->).
    exists c', average. eexists. split; [done|]. rewrite Hid.
    split; [apply lookup_insert_eq|]. split; [done|].
    split; [intros other Hne; by rewrite lookup_insert_ne|]. tauto.
  - destruct (customer_update_stats_found None now request pk c c db db
                Hm Hpk eq_refl) as (average & Havg & ->).
    exists c, average, db. done.
Qed.

Lemma update_stats_reports_stored_witness :
  let request := POST_request [] in
  let db : gmap Z Customer.t := {[ 1 := sample_customer 1 "Ann" 0 ]} in
  let c := sample_customer 1 "Ann" 0 in
  method request = "POST" ∧ keyed db ∧ db !! 1 = Some c
  ∧ ∃ c' average db',
      customer_update_stats (Some sample_sales) 1000 request 1 db
      = (Ok (JsonResponse
               [("success", JBool true);
                ("total_spent", JFloat (Customer.total_spent c'));
                ("visit_count", JInt (Customer.visit_count c'));
                ("average_purchase", JFloat average)]),
         db')
      ∧ db' !! 1 = Some c'
      ∧ Customer.average_purchase c' = Ok average
      ∧ (∀ other, other ≠ 1 → db' !! other = db !! other)
      ∧ (Customer.name c' = Customer.name c
         ∧ Customer.email c' = Customer.email c
         ∧ Customer.phone c' = Customer.phone c
         ∧ Customer.address c' = Customer.address c
         ∧ Customer.tax_id c' = Customer.tax_id c
         ∧ Customer.notes c' = Customer.notes c
         ∧ Customer.is_active c' = Customer.is_active c).
Proof.
  cbv zeta.
  assert (keyed ({[ 1 := sample_customer 1 "Ann" 0 ]} : gmap Z Customer.t))
    as Hk by (unfold keyed; apply (bool_decide_unpack _); by vm_compute).
  split; [reflexivity|]. split; [exact Hk|]. split; [reflexivity|].
  apply (update_stats_reports_stored (Some sample_sales) 1000
           (POST_request []) 1 (sample_customer 1 "Ann" 0)
           {[ 1 := sample_customer 1 "Ann" 0 ]});
    [reflexivity|exact Hk|reflexivity].
Defined.

(** X15: recomputing the statistics is idempotent: over the same sales, a
    second [update_stats] right after the first leaves the instance as the
    first left it, except for [updated_at], and stores it under the same
    identifier. *)
Theorem update_stats_idempotent (sales : list Sale.t) (now now' : datetime)
    (c : Customer.t) (db : gmap Z Customer.t) :
  ∃ c1 db1,
    Customer.update_stats (Some sales) now c db = (Ok c1, db1)
    ∧ Customer.update_stats (Some sales) now' c1 db1
      = (Ok (Customer.set_updated_at now' c1),
         <[Customer.id c := Customer.set_updated_at now' c1]> db).
Proof.
  eexists _, _. split; [apply update_stats_installed|].
  rewrite update_stats_installed. unfold Customer.completed_sales.
  cbn [Customer.id Customer.name Customer.created_at].
  rewrite (decide_True (P := map_Exists _ (<[_ := _]> _)))
    by (by apply map_Exists_insert_2_1).
  rewrite insert_insert_eq.
  unfold Customer.set_updated_at. simpl.
  by destruct (head _).
Qed.

(** ** After a soft delete *)

Lemma customers_export_queryset_spec (customers : list Customer.t)
    (c : Customer.t) :
  c ∈ customers_export_queryset customers
  ↔ c ∈ customers ∧ Customer.is_active c = true.
Proof.
  unfold customers_export_queryset.
  rewrite (order_by_elem_of Customer.by_name), list_elem_of_filter. tauto.
Qed.

Lemma objects_all_delete (db : gmap Z Customer.t) (pk : Z) (c : Customer.t) :
  db !! pk = Some c →
  (map_to_list db).*2 ≡ₚ c :: (map_to_list (delete pk db)).*2.
Proof.
  intros Hpk. by rewrite <- (map_to_list_delete db pk c Hpk).
Qed.

Lemma customers_export_queryset_Permutation (customers : list Customer.t) :
  customers_export_queryset customers
  ≡ₚ filter (λ c, Customer.is_active c = true) customers.
Proof. apply merge_sort_Permutation. Qed.

(** X16: a soft delete takes the customer out of the export and out of the
    listing for [status=active] (the default), although its row is still
    stored: the rows of the export before the delete are those of the
    export after it together with the row of the customer, if the customer
    was active (the same rows if it was inactive already), and the
    identifier of the customer is in no entry of the listing. *)
Theorem deleted_customer_is_hidden (now now' : datetime)
    (delete_request export_request list_request : HttpRequest) (pk : Z)
    (c : Customer.t) (db : gmap Z Customer.t) :
  method delete_request = "POST" →
  method export_request = "GET" → method list_request = "GET" →
  qd_get (GET list_request) "status" "active" = "active" →
  keyed db → db !! pk = Some c →
  ∃ db' before after listed,
    (customer_delete now delete_request pk db).2 = db'
    ∧ is_Some (db' !! pk)
    ∧ customers_export now' export_request db
      = (Ok (CsvAttachment now' ((CellStr <$> export_header) :: before)), db)
    ∧ customers_export now' export_request db'
      = (Ok (CsvAttachment now' ((CellStr <$> export_header) :: after)), db')
    ∧ before ≡ₚ (if Customer.is_active c then [export_row c] else []) ++ after
    ∧ customer_list_ajax list_request db' = (Ok (listing_of listed), db')
    ∧ (pk ∉ Customer.id <$> listed).
Proof.
  intros Hmd Hme Hml Hstatus Hk Hpk.
  pose proof (keyed_lookup _ _ _ Hk Hpk) as Hid.
  rewrite (customer_delete_found _ _ _ c) by done. cbn [snd]. rewrite Hid.
  set (c' := Customer.set_updated_at now (Customer.set_is_active false c)).
  set (db' := <[pk := c']> db).
  assert (keyed db') as Hk'.
  { unfold db'. rewrite <- Hid. apply (keyed_insert db c' Hk). }
  assert (∀ r, stored db' r → Customer.id r = pk →
               Customer.is_active r = false) as Hinactive.
  { intros r [k Hr] Hrid. rewrite (keyed_lookup _ _ _ Hk' Hr) in Hrid.
    subst k. unfold db' in Hr. rewrite lookup_insert_eq in Hr.
    by injection Hr as <-. }
  eexists _, _, _, _. split; [reflexivity|].
  split; [unfold db'; by rewrite lookup_insert_eq|].
  split; [by apply customers_export_response|].
  split; [by apply customers_export_response|].
  split; [|split; [by apply customer_list_ajax_response|]].
  - rewrite !customers_export_queryset_Permutation.
    rewrite (objects_all_delete db pk c Hpk).
    rewrite (objects_all_delete db' pk c') by apply lookup_insert_eq.
    unfold db'. rewrite delete_insert_eq.
    rewrite !filter_cons. cbn [Customer.is_active Customer.set_updated_at
                                 Customer.set_is_active c'].
    rewrite (decide_False (P := false = true)) by done.
    destruct (Customer.is_active c); [by rewrite decide_True|].
    by rewrite decide_False.
  - intros (r & Hrid & Hr%subseteq_take)%list_elem_of_fmap.
    apply customer_list_ajax_queryset_spec in Hr as (Hr & [Hact _] & _).
    apply objects_all_stored in Hr. specialize (Hact Hstatus).
    rewrite (Hinactive r Hr) in Hact; done.
Qed.

Lemma deleted_customer_is_hidden_witness :
  let c := sample_customer 1 "bob" 10 in
  keyed mixed_db ∧ mixed_db !! 1 = Some c
  ∧ ∃ db' before after listed,
      (customer_delete 50 (POST_request []) 1 mixed_db).2 = db'
      ∧ is_Some (db' !! 1)
      ∧ customers_export 60 (GET_request []) mixed_db
        = (Ok (CsvAttachment 60 ((CellStr <$> export_header) :: before)),
           mixed_db)
      ∧ customers_export 60 (GET_request []) db'
        = (Ok (CsvAttachment 60 ((CellStr <$> export_header) :: after)), db')
      ∧ before ≡ₚ (if Customer.is_active c then [export_row c] else [])
                  ++ after
      ∧ customer_list_ajax (GET_request []) db' = (Ok (listing_of listed), db')
      ∧ (1 ∉ Customer.id <$> listed).
Proof.
  cbv zeta.
  assert (keyed mixed_db) as Hk
    by (unfold keyed; apply (bool_decide_unpack _); by vm_compute).
  split; [exact Hk|]. split; [reflexivity|].
  apply (deleted_customer_is_hidden 50 60 (POST_request []) (GET_request [])
           (GET_request []) 1 (sample_customer 1 "bob" 10) mixed_db);
    try reflexivity; exact Hk.
Defined.

(** The export of [mixed_db] before and after the soft delete of bob: Alice
    and bob before, Alice alone after. *)
Example export_after_delete :
  (customers_export 60 (GET_request []) mixed_db).1
  = Ok (CsvAttachment 60
          [CellStr <$> export_header;
           export_row (sample_customer 3 "Alice" 30);
           export_row (sample_customer 1 "bob" 10)])
  ∧ (customers_export 60 (GET_request [])
       (customer_delete 50 (POST_request []) 1 mixed_db).2).1
    = Ok (CsvAttachment 60
            [CellStr <$> export_header;
             export_row (sample_customer 3 "Alice" 30)]).
Proof. split; reflexivity. Qed.

(** ** The search text *)

Lemma lower_empty (s : string) : lower s = "" ↔ s = "".
Proof. by destruct s. Qed.

(** X17: the listing depends on the search text only through its trimmed,
    case-folded form: two requests with the same status whose search texts
    agree after trimming and ASCII case folding get the same answer. *)
Theorem search_text_normalised (request1 request2 : HttpRequest)
    (db : gmap Z Customer.t) :
  method request1 = "GET" → method request2 = "GET" →
  qd_get (GET request1) "status" "active"
  = qd_get (GET request2) "status" "active" →
  lower (strip (qd_get (GET request1) "search" ""))
  = lower (strip (qd_get (GET request2) "search" "")) →
  customer_list_ajax request1 db = customer_list_ajax request2 db.
Proof.
  intros Hm1 Hm2 Hstatus Hsearch.
  rewrite !customer_list_ajax_response by done. do 3 f_equal.
  unfold customer_list_ajax_queryset. cbv zeta. rewrite Hstatus.
  set (customers := if decide (_ = "active") then _ else _).
  set (s1 := strip (qd_get (GET request1) "search" "")) in *.
  set (s2 := strip (qd_get (GET request2) "search" "")) in *.
  destruct (decide (s1 = "")) as [H1|H1], (decide (s2 = "")) as [H2|H2].
  - done.
  - destruct H2. apply lower_empty. rewrite <- Hsearch. by apply lower_empty.
  - destruct H1. apply lower_empty. rewrite Hsearch. by apply lower_empty.
  - rewrite (list_filter_iff _
               (λ c, icontains (Customer.name c) s2
                     || icontains (Customer.phone c) s2
                     || icontains (Customer.email c) s2
                     || icontains (Customer.tax_id c) s2)); [done|].
    intros c. unfold icontains. by rewrite Hsearch.
Qed.

Lemma search_text_normalised_witness :
  let request1 := GET_request [("search", "  TEST ")] in
  let request2 := GET_request [("search", "test"); ("status", "active")] in
  customer_list_ajax request1 sample_db = customer_list_ajax request2 sample_db.
Proof.
  cbv zeta.
  apply (search_text_normalised (GET_request [("search", "  TEST ")])
           (GET_request [("search", "test"); ("status", "active")]) sample_db);
    reflexivity.
Defined.

(** ** Who may change the statistics *)

Lemma replaced_row_lookup (R : relation Customer.t) `{!Reflexive R}
    (db : gmap Z Customer.t) (target pk : Z) (c0 c0' c : Customer.t) :
  keyed db → db !! target = Some c0 → R c0 c0' → db !! pk = Some c →
  ∃ c', <[Customer.id c0 := c0']> db !! pk = Some c' ∧ R c c'.
Proof.
  intros Hk Htarget HR Hpk. rewrite (keyed_lookup _ _ _ Hk Htarget).
  destruct (decide (target = pk)) as [->|Hne].
  - rewrite lookup_insert_eq. rewrite Hpk in Htarget.
    injection Htarget as ->. eauto.
  - rewrite lookup_insert_ne by done. eauto.
Qed.

(** X18: the create, edit and delete handlers never change the purchase
    statistics: after any such request every stored customer is still stored
    under its key with the [total_spent], [visit_count] and
    [last_purchase_at] it had. *)
Theorem statistics_kept (now : datetime) (request : HttpRequest)
    (target pk : Z) (c : Customer.t) (db : gmap Z Customer.t) :
  keyed db → db !! pk = Some c →
  let same_statistics (db' : gmap Z Customer.t) :=
    ∃ c', db' !! pk = Some c'
      ∧ Customer.total_spent c' = Customer.total_spent c
      ∧ Customer.visit_count c' = Customer.visit_count c
      ∧ Customer.last_purchase_at c' = Customer.last_purchase_at c in
  same_statistics (customer_create now request db).2
  ∧ same_statistics (customer_edit now request target db).2
  ∧ same_statistics (customer_delete now request target db).2.
Proof.
  intros Hk Hpk. cbv zeta.
  set (R := λ a b : Customer.t,
         Customer.total_spent b = Customer.total_spent a
         ∧ Customer.visit_count b = Customer.visit_count a
         ∧ Customer.last_purchase_at b = Customer.last_purchase_at a).
  assert (Reflexive R) as HR by (by intros a).
  assert (∃ c', db !! pk = Some c' ∧ R c c') as Hsame by (by exists c).
  destruct (decide (method request = "POST")) as [Hm|Hm].
  2: { destruct (read_only_unless_POST None now request target Hm)
         as (-> & -> & -> & _). done. }
  split; [|split].
  - destruct (decide (strip (qd_get (POST request) "name" "") = ""))
      as [Hname|Hname].
    + by rewrite customer_create_blank_name.
    + destruct (customer_create_valid now request db Hm Hname) as [Hfresh ->].
      cbn [snd]. exists c. rewrite lookup_insert_ne by congruence. done.
  - destruct (db !! target) as [c0|] eqn:Htarget.
    + destruct (decide (strip (qd_get (POST request) "name" "") = ""))
        as [Hname|Hname].
      * by rewrite (customer_edit_blank_name _ _ _ c0).
      * rewrite (customer_edit_valid _ _ _ c0) by done. cbn [snd].
        by apply (replaced_row_lookup R db target).
    + rewrite <- get_response_table, customer_edit_unknown;
        [done|rewrite Hm; apply list_elem_of_further, list_elem_of_here|done].
  - destruct (db !! target) as [c0|] eqn:Htarget.
    + rewrite (customer_delete_found _ _ _ c0) by done. cbn [snd].
      by apply (replaced_row_lookup R db target).
    + by rewrite <- get_response_table, customer_delete_unknown.
Qed.

Lemma statistics_kept_witness :
  let request := POST_request [("name", "Robert")] in
  let same_statistics (db' : gmap Z Customer.t) :=
    ∃ c', db' !! 1 = Some c'
      ∧ Customer.total_spent c' = Customer.total_spent returning_customer
      ∧ Customer.visit_count c' = Customer.visit_count returning_customer
      ∧ Customer.last_purchase_at c'
        = Customer.last_purchase_at returning_customer in
  keyed returning_db ∧ returning_db !! 1 = Some returning_customer
  ∧ same_statistics (customer_create 50 request returning_db).2
  ∧ same_statistics (customer_edit 50 request 1 returning_db).2
  ∧ same_statistics (customer_delete 50 request 1 returning_db).2.
Proof.
  cbv zeta.
  assert (keyed returning_db) as Hk
    by (unfold keyed; apply (bool_decide_unpack _); by vm_compute).
  split; [exact Hk|]. split; [reflexivity|].
  exact (statistics_kept 50 (POST_request [("name", "Robert")])
           1 1 returning_customer returning_db Hk eq_refl).
Defined.

(** The customer of the witness above after the edit: renamed and
    deactivated, with 100.00 spent over 4 visits and the last purchase at
    time 300 as before. *)
Example statistics_after_edit :
  ∃ c', (customer_edit 50 (POST_request [("name", "Robert")]) 1
           returning_db).2 !! 1 = Some c'
    ∧ Customer.name c' = "Robert"
    ∧ Customer.is_active c' = false
    ∧ Customer.total_spent c' = Qc_of_Z 100
    ∧ Customer.visit_count c' = 4
    ∧ Customer.last_purchase_at c' = Some 300.
Proof. eexists. split; [reflexivity|]. done. Qed.

(** ** The detail page *)

(** X19: for a stored customer the detail page shows that customer and at
    most ten purchases, all of them completed sales recorded under the
    customer's name and newest first, and none when the sales application is
    missing; the fragment is rendered for a request marked [HX-Request], the
    full page otherwise, and the table is not written. *)
Theorem detail_page (sales_app : option (list Sale.t)) (request : HttpRequest)
    (pk : Z) (c : Customer.t) (db : gmap Z Customer.t) :
  method request = "GET" → db !! pk = Some c →
  ∃ recent_purchases,
    customer_detail sales_app request pk db
    = (Ok (render
             (if HX_Request request
              then "customer/partials/detail_content.html"
              else "customer/pages/detail.html")
             [("customer", CtxCustomer (Some c));
              ("recent_purchases", CtxSales recent_purchases);
              ("page_title", CtxStr ("Cliente: " +:+ Customer.name c))]),
       db)
    ∧ (length recent_purchases ≤ 10)%nat
    ∧ (sales_app = None → recent_purchases = [])
    ∧ StronglySorted
        (λ a b, Sale.created_at b ≤ Sale.created_at a) recent_purchases
    ∧ (∀ sale, sale ∈ recent_purchases →
         ∃ sales, sales_app = Some sales ∧ sale ∈ sales
           ∧ Sale.customer_name sale = Customer.name c
           ∧ Sale.status sale = "completed").
Proof.
  intros Hm Hpk.
  assert (∀ purchases,
    Customer.get_recent_purchases sales_app c 10 db = (Ok purchases, db) →
    customer_detail sales_app request pk db
    = (Ok (render
             (if HX_Request request
              then "customer/partials/detail_content.html"
              else "customer/pages/detail.html")
             [("customer", CtxCustomer (Some c));
              ("recent_purchases", CtxSales purchases);
              ("page_title", CtxStr ("Cliente: " +:+ Customer.name c))]),
       db)) as Hpage.
  { intros purchases Hrecent. unfold customer_detail.
    rewrite require_http_methods_permitted by (rewrite Hm; set_solver).
    unfold mbind, DB_bind.
    rewrite (get_object_or_404_found _ _ _ Hpk), Hrecent.
    by destruct (HX_Request request). }
  destruct sales_app as [sales|].
  - set (ordered := merge_sort Customer.newest_sale_first
                      (Customer.completed_sales sales c)).
    exists (take 10 ordered). split; [by apply Hpage|].
    split; [rewrite length_take; lia|]. split; [done|]. split.
    + apply (order_by_take_sorted Customer.newest_sale_first).
    + intros sale Hsale%subseteq_take. exists sales. split; [done|].
      unfold ordered in Hsale.
      rewrite (order_by_elem_of Customer.newest_sale_first) in Hsale.
      apply list_elem_of_filter in Hsale. tauto.
  - exists []. split; [by apply Hpage|]. split; [simpl; lia|].
    split; [done|]. split; [constructor|]. by intros sale ?%elem_of_nil.
Qed.

Lemma detail_page_witness :
  let request := GET_request [] in
  method request = "GET" ∧ ann_db !! 1 = Some (sample_customer 1 "Ann" 0)
  ∧ ∃ recent_purchases,
      customer_detail (Some sample_sales) request 1 ann_db
      = (Ok (render "customer/pages/detail.html"
               [("customer", CtxCustomer (Some (sample_customer 1 "Ann" 0)));
                ("recent_purchases", CtxSales recent_purchases);
                ("page_title", CtxStr "Cliente: Ann")]),
         ann_db)
      ∧ (length recent_purchases ≤ 10)%nat.
Proof.
  cbv zeta. split; [reflexivity|]. split; [reflexivity|].
  destruct (detail_page (Some sample_sales) (GET_request []) 1
              (sample_customer 1 "Ann" 0) ann_db eq_refl eq_refl)
    as (purchases & Hpage & Hlen & _).
  exists purchases. split; [exact Hpage|exact Hlen].
Defined.

(** ** Edit after delete *)

(** X20: a successful edit POST overrides an earlier soft delete
    completely: editing a customer right after it has been soft-deleted
    gives the same answer and the same table as editing it without the
    delete (the edit rewrites [is_active] and [updated_at], the only fields
    the delete had changed). *)
Theorem edit_overrides_delete (now now' : datetime)
    (delete_request edit_request : HttpRequest) (pk : Z) (c : Customer.t)
    (db : gmap Z Customer.t) :
  method delete_request = "POST" → method edit_request = "POST" →
  strip (qd_get (POST edit_request) "name" "") ≠ "" →
  keyed db → db !! pk = Some c →
  customer_edit now' edit_request pk
    (customer_delete now delete_request pk db).2
  = customer_edit now' edit_request pk db.
Proof.
  intros Hmd Hme Hname Hk Hpk.
  pose proof (keyed_lookup _ _ _ Hk Hpk) as Hid.
  rewrite (customer_delete_found _ _ _ c) by done. cbn [snd].
  rewrite (customer_edit_valid now' edit_request pk c db) by done.
  rewrite (customer_edit_valid now' edit_request pk
             (Customer.set_updated_at now (Customer.set_is_active false c)));
    [|done|by rewrite Hid, lookup_insert_eq|done].
  cbn [Customer.set_updated_at Customer.set_is_active Customer.id
       Customer.total_spent Customer.visit_count Customer.created_at
       Customer.last_purchase_at].
  by rewrite insert_insert_eq.
Qed.

Lemma edit_overrides_delete_witness :
  let edit_request := POST_request [("name", "Test"); ("is_active", "on")] in
  customer_edit 9 edit_request 1
    (customer_delete 8 (POST_request []) 1 sample_db).2
  = customer_edit 9 edit_request 1 sample_db.
Proof.
  cbv zeta.
  apply (edit_overrides_delete 8 9 (POST_request [])
           (POST_request [("name", "Test"); ("is_active", "on")]) 1
           (sample_customer 1 "Test Customer" 0) sample_db);
    [reflexivity|reflexivity|discriminate
    |unfold keyed; apply (bool_decide_unpack _); by vm_compute|reflexivity].
Defined.
